(** * Viet Su Tri chat client: the session controller of [static/app.js]

    A shallow embedding of the browser-side controller (two message
    threads, staged PDF uploads, the single-flight request dispatch, the
    message formatter and the confirmation slot), with the properties the
    specification states about it. *)

From Stdlib Require Import NArith List Bool String Ascii Lia.
Import ListNotations.
Open Scope N_scope.

(** ** JavaScript strings

    A JavaScript string is a sequence of UTF-16 code units; regular
    expressions without the [u] flag, [trim] and [replace] all work on code
    units, so that is the representation used here. *)

Module JsString.

Definition unit16 := N.
Definition jsstr := list unit16.

(** Decoding of the UTF-8 bytes of a literal into UTF-16 code units, so that
    the string constants of the source can be written as they appear there. *)
Fixpoint utf16_of_utf8 (bs : list N) : jsstr :=
  match bs with
  | [] => []
  | b0 :: r0 =>
    if b0 <? 0x80 then b0 :: utf16_of_utf8 r0
    else if b0 <? 0xE0 then
      match r0 with
      | b1 :: r1 =>
        N.lor (N.shiftl (N.land b0 0x1F) 6) (N.land b1 0x3F) :: utf16_of_utf8 r1
      | _ => []
      end
    else if b0 <? 0xF0 then
      match r0 with
      | b1 :: b2 :: r2 =>
        N.lor (N.shiftl (N.land b0 0x0F) 12)
              (N.lor (N.shiftl (N.land b1 0x3F) 6) (N.land b2 0x3F))
          :: utf16_of_utf8 r2
      | _ => []
      end
    else
      match r0 with
      | b1 :: b2 :: b3 :: r3 =>
        let cp := N.lor (N.shiftl (N.land b0 0x07) 18)
                 (N.lor (N.shiftl (N.land b1 0x3F) 12)
                 (N.lor (N.shiftl (N.land b2 0x3F) 6) (N.land b3 0x3F))) in
        let v := cp - 0x10000 in
        (0xD800 + N.shiftr v 10) :: (0xDC00 + N.land v 0x3FF) :: utf16_of_utf8 r3
      | _ => []
      end
  end.

Definition js (s : string) : jsstr :=
  utf16_of_utf8 (map N_of_ascii (list_ascii_of_string s)).

Fixpoint str_eqb (a b : jsstr) : bool :=
  match a, b with
  | [], [] => true
  | x :: a', y :: b' => (x =? y) && str_eqb a' b'
  | _, _ => false
  end.

(** [strip_prefix p s] is [Some r] when [s = p ++ r]. *)
Fixpoint strip_prefix (p s : jsstr) : option jsstr :=
  match p with
  | [] => Some s
  | x :: p' =>
    match s with
    | [] => None
    | y :: s' => if x =? y then strip_prefix p' s' else None
    end
  end.

(** ECMAScript LineTerminator: LF, CR, LS, PS.  The regular expression atom
    [.] matches every code unit but these. *)
Definition is_line_terminator (c : unit16) : bool :=
  (c =? 0x0A) || (c =? 0x0D) || (c =? 0x2028) || (c =? 0x2029).

(** ECMAScript WhiteSpace, the characters removed by [String.prototype.trim]
    together with the line terminators. *)
Definition is_white_space (c : unit16) : bool :=
  (c =? 0x09) || (c =? 0x0B) || (c =? 0x0C) || (c =? 0x20) || (c =? 0xA0)
  || (c =? 0x1680) || ((0x2000 <=? c) && (c <=? 0x200A))
  || (c =? 0x202F) || (c =? 0x205F) || (c =? 0x3000) || (c =? 0xFEFF).

Definition trimmable (c : unit16) : bool :=
  is_white_space c || is_line_terminator c.

Fixpoint trimStart (s : jsstr) : jsstr :=
  match s with
  | [] => []
  | c :: s' => if trimmable c then trimStart s' else s
  end.

Definition trimEnd (s : jsstr) : jsstr := rev (trimStart (rev s)).

Definition trim (s : jsstr) : jsstr := trimEnd (trimStart s).

(** [s.replace(pat, rep)] with a string pattern: only the first occurrence
    of [pat], wherever it is, is replaced. *)
Fixpoint replace_first (pat rep s : jsstr) : jsstr :=
  match strip_prefix pat s with
  | Some rest => rep ++ rest
  | None =>
    match s with
    | [] => []
    | c :: s' => c :: replace_first pat rep s'
    end
  end.

(** The lazy group [(.*?)] followed by the literal [d], matched at the head
    of [s]: the shortest run of non-terminators after which [d] occurs.
    Returns the captured run and what follows the closing [d]. *)
Fixpoint close_lazy (d s : jsstr) : option (jsstr * jsstr) :=
  match strip_prefix d s with
  | Some rest => Some ([], rest)
  | None =>
    match s with
    | [] => None
    | c :: s' =>
      if is_line_terminator c then None
      else match close_lazy d s' with
           | Some (cap, rest) => Some (c :: cap, rest)
           | None => None
           end
    end
  end.

(** [s.replace(/d(.*?)d/g, opn + "$1" + cls)] for a literal delimiter [d]:
    scan from the left; at a match emit the replacement and go on after the
    match, otherwise copy one code unit.  The fuel bounds the number of
    scan steps; [length s] is always enough. *)
Fixpoint replace_pair_go (fuel : nat) (d opn cls s : jsstr) : jsstr :=
  match fuel with
  | O => s
  | S fuel' =>
    match s with
    | [] => []
    | c :: s' =>
      match strip_prefix d s with
      | Some inner =>
        match close_lazy d inner with
        | Some (cap, rest) =>
          opn ++ cap ++ cls ++ replace_pair_go fuel' d opn cls rest
        | None => c :: replace_pair_go fuel' d opn cls s'
        end
      | None => c :: replace_pair_go fuel' d opn cls s'
      end
    end
  end.

Definition replace_pair (d opn cls s : jsstr) : jsstr :=
  replace_pair_go (List.length s) d opn cls s.

(** [s.replace(/\n/g, rep)]. *)
Fixpoint replace_newlines (rep s : jsstr) : jsstr :=
  match s with
  | [] => []
  | c :: s' =>
    if c =? 0x0A then rep ++ replace_newlines rep s'
    else c :: replace_newlines rep s'
  end.

(** The value read from a [textarea]: the platform returns the text with
    every CR LF pair and every lone CR turned into LF. *)
Fixpoint normalizeNewlines (s : jsstr) : jsstr :=
  match s with
  | [] => []
  | c :: r =>
    if c =? 0x0D then
      match r with
      | c' :: r' =>
        if c' =? 0x0A then 0x0A :: normalizeNewlines r'
        else 0x0A :: normalizeNewlines r
      | [] => [0x0A]
      end
    else c :: normalizeNewlines r
  end.

End JsString.
Import JsString.

(** ** Message formatting ([formatMessage], app.js 263-269) *)

Definition formatBold (s : jsstr) : jsstr :=
  replace_pair (js "**") (js "<strong>") (js "</strong>") s.

Definition formatItalic (s : jsstr) : jsstr :=
  replace_pair (js "*") (js "<em>") (js "</em>") s.

Definition formatBreaks (s : jsstr) : jsstr :=
  replace_newlines (js "<br>") s.

Definition formatMessage (content : jsstr) : jsstr :=
  formatBreaks (formatItalic (formatBold content)).

#[global] Arguments formatMessage : simpl never.


(** ** The platform's URL parser

    [getDomainFromUrl] relies on [new URL(url).hostname], which belongs to
    the browser and not to the repository.  The controller is therefore
    stated over any parser: [url_hostname url] is [Some h] when the
    constructor succeeds with hostname [h], and [None] when it throws. *)

Class UrlApi := { url_hostname : jsstr -> option jsstr }.

Module Url.

Definition is_host_unit (c : unit16) : bool :=
  ((0x61 <=? c) && (c <=? 0x7A)) || ((0x30 <=? c) && (c <=? 0x39))
  || (c =? 0x2D) || (c =? 0x2E).

Definition lower (c : unit16) : unit16 :=
  if (0x41 <=? c) && (c <=? 0x5A) then c + 0x20 else c.

Definition ends_authority (c : unit16) : bool :=
  (c =? 0x2F) || (c =? 0x3A) || (c =? 0x3F) || (c =? 0x23).

Fixpoint authority_host (s : jsstr) : jsstr :=
  match s with
  | [] => []
  | c :: s' => if ends_authority c then [] else lower c :: authority_host s'
  end.

(** A small concrete parser, used for the worked examples only.  It is
    meant for ordinary domain names: it accepts [http://] and [https://]
    followed by a host made of ASCII letters, digits, [-] and [.], and
    returns that host in lower case, dropping port, path, query and
    fragment; it rejects everything else.  It does none of the platform's
    normalisations (IPv4 numbers, IDNA, stripping of spaces). *)
Definition hostname (url : jsstr) : option jsstr :=
  let after :=
    match strip_prefix (js "http://") url with
    | Some r => Some r
    | None => strip_prefix (js "https://") url
    end in
  match after with
  | None => None
  | Some r =>
    let h := authority_host r in
    match h with
    | [] => None
    | _ => if forallb is_host_unit h then Some h else None
    end
  end.

Definition simple : UrlApi := {| url_hostname := hostname |}.

End Url.

(** ** Data model (app.js 4-14 and the objects built in the handlers) *)

Inductive Sender := User | Ai.

Definition Sender_eqb (a b : Sender) : bool :=
  match a, b with
  | User, User | Ai, Ai => true
  | _, _ => false
  end.

(** A stored message object.  [sourceUrls] is [None] when the property is
    absent or is not an array ([undefined] for user messages). *)
Record Message := {
  content : jsstr;
  sender : Sender;
  sourceUrls : option (list jsstr);
  timestamp : jsstr
}.

(** A browser [File]: only the properties the script reads. *)
Record File := {
  fileName : jsstr;
  fileSize : N;
  fileType : jsstr
}.

(** An entry of [uploadedPDFs].  [id] is the number
    [Date.now() + Math.random()], an opaque token chosen by the
    environment. *)
Record StagedPdf := {
  name : jsstr;
  size : N;
  file : File;
  id : N
}.

Definition stagedKey (p : StagedPdf) : jsstr * N := (name p, size p).

(** One entry of the reference block of a rendered AI message: the holes
    [index + 1], [url] and [getDomainFromUrl(url)] of the template. *)
Record Reference := {
  refNumber : N;
  refUrl : jsstr;
  refLabel : jsstr
}.

(** The children of [#chatMessages] created by the script.  A message node
    keeps the [data-mode] attribute and the holes of the [innerHTML]
    template of [addMessage]: the sender-dependent classes, the formatted
    content and the reference block; the constant markup is left out.
    [TypingNode] is the clone with id [activeTypingIndicator]. *)
Inductive Node :=
| MessageNode (dataMode : jsstr) (from : Sender) (body : jsstr)
              (refs : list Reference)
| TypingNode.

(** Placeholder and footer text, and the label of the clear submenu. *)
Inductive Wording := ForHistory | ForPdf.

Record View := {
  chat : list Node;
  historyWelcomeHidden : bool;
  pdfWelcomeHidden : bool;
  activeMenuItem : option nat;
  prompt : Wording;
  currentModeText : Wording
}.

(** The two functions stored in [pendingClearAction]. *)
Inductive ClearAction := ClearHistoryThread | ClearPdfThread.

(** The toasts, by call site of [showToast]. *)
Inductive Notice :=
| NeedPdfFirst
| FileTooLarge (n : jsstr)
| FileDuplicate (n : jsstr)
| FileAdded (n : jsstr)
| FileNotPdf (n : jsstr)
| FileRemoved (n : jsstr)
| OnlyPdfSupported
| HistoryCleared
| PdfCleared.

(** The two requests of [sendMessage]:
    [POST /api/rag-chat] with a JSON body, and
    [POST /api/pdf-rag-chat] with form data [pdf_0 .. pdf_n]. *)
Inductive Request :=
| RagChat (message time : jsstr)
| PdfRagChat (message time : jsstr) (pdfs : list File).

(** What is thrown inside the [try] of [sendMessage]. *)
Inductive JsError :=
| FetchRejected (reason : jsstr)
| HttpError (status : N)
| JsonRejected
| TypeError.

(** The observable effects of the handlers, oldest first.  [SetTyping]
    records each assignment to the in-flight guard [isTyping]. *)
Inductive Effect :=
| SetTyping (b : bool)
| Fetch (req : Request)
| Toast (n : Notice)
| ConsoleError (e : JsError).

(** The module-level variables of app.js, the input box, the view, and
    the trace of effects so far.  [inputValue] is [messageInput.value] as
    the script reads it. *)
Record State := {
  isTyping : bool;
  currentMode : jsstr;
  uploadedPDFs : list StagedPdf;
  menuOpen : bool;
  pendingClearAction : option ClearAction;
  historyMessages : list Message;
  pdfMessages : list Message;
  inputValue : jsstr;
  view : View;
  effects : list Effect
}.

(** The parsed body of a response ([data] in [sendMessage]) when it is not
    [null].  [answer] is [None] when the property is absent or not a
    string. *)
Record ResponseData := {
  success : bool;
  answer : option jsstr;
  source_urls : option (list jsstr)
}.

(** What [response.json()] gives: a rejection, the value [null] (on which
    [data.success] throws), or any other value. *)
Inductive Body :=
| Unparsable
| ParsedNull
| Parsed (data : ResponseData).

(** How the pending [fetch] settles. *)
Inductive FetchResult :=
| Rejected (reason : jsstr)
| Responded (status : N) (body : Body).

(** *** Field updates

    [set_isTyping] also appends the assignment to the trace, so that every
    write to the guard is recorded; [emit] appends any other effect. *)

Definition set_chat (c : list Node) (v : View) : View :=
  {| chat := c;
     historyWelcomeHidden := historyWelcomeHidden v;
     pdfWelcomeHidden := pdfWelcomeHidden v;
     activeMenuItem := activeMenuItem v;
     prompt := prompt v;
     currentModeText := currentModeText v |}.

Definition set_historyWelcomeHidden (b : bool) (v : View) : View :=
  {| chat := chat v;
     historyWelcomeHidden := b;
     pdfWelcomeHidden := pdfWelcomeHidden v;
     activeMenuItem := activeMenuItem v;
     prompt := prompt v;
     currentModeText := currentModeText v |}.

Definition set_pdfWelcomeHidden (b : bool) (v : View) : View :=
  {| chat := chat v;
     historyWelcomeHidden := historyWelcomeHidden v;
     pdfWelcomeHidden := b;
     activeMenuItem := activeMenuItem v;
     prompt := prompt v;
     currentModeText := currentModeText v |}.

Definition set_activeMenuItem (i : option nat) (v : View) : View :=
  {| chat := chat v;
     historyWelcomeHidden := historyWelcomeHidden v;
     pdfWelcomeHidden := pdfWelcomeHidden v;
     activeMenuItem := i;
     prompt := prompt v;
     currentModeText := currentModeText v |}.

Definition set_prompt (w : Wording) (v : View) : View :=
  {| chat := chat v;
     historyWelcomeHidden := historyWelcomeHidden v;
     pdfWelcomeHidden := pdfWelcomeHidden v;
     activeMenuItem := activeMenuItem v;
     prompt := w;
     currentModeText := currentModeText v |}.

Definition set_currentModeText (w : Wording) (v : View) : View :=
  {| chat := chat v;
     historyWelcomeHidden := historyWelcomeHidden v;
     pdfWelcomeHidden := pdfWelcomeHidden v;
     activeMenuItem := activeMenuItem v;
     prompt := prompt v;
     currentModeText := w |}.

Definition set_isTyping (b : bool) (st : State) : State :=
  {| isTyping := b; currentMode := currentMode st;
     uploadedPDFs := uploadedPDFs st; menuOpen := menuOpen st;
     pendingClearAction := pendingClearAction st;
     historyMessages := historyMessages st; pdfMessages := pdfMessages st;
     inputValue := inputValue st; view := view st;
     effects := effects st ++ [SetTyping b] |}.

Definition set_currentMode (m : jsstr) (st : State) : State :=
  {| isTyping := isTyping st; currentMode := m;
     uploadedPDFs := uploadedPDFs st; menuOpen := menuOpen st;
     pendingClearAction := pendingClearAction st;
     historyMessages := historyMessages st; pdfMessages := pdfMessages st;
     inputValue := inputValue st; view := view st;
     effects := effects st |}.

Definition set_uploadedPDFs (l : list StagedPdf) (st : State) : State :=
  {| isTyping := isTyping st; currentMode := currentMode st;
     uploadedPDFs := l; menuOpen := menuOpen st;
     pendingClearAction := pendingClearAction st;
     historyMessages := historyMessages st; pdfMessages := pdfMessages st;
     inputValue := inputValue st; view := view st;
     effects := effects st |}.

Definition set_menuOpen (b : bool) (st : State) : State :=
  {| isTyping := isTyping st; currentMode := currentMode st;
     uploadedPDFs := uploadedPDFs st; menuOpen := b;
     pendingClearAction := pendingClearAction st;
     historyMessages := historyMessages st; pdfMessages := pdfMessages st;
     inputValue := inputValue st; view := view st;
     effects := effects st |}.

Definition set_pendingClearAction (a : option ClearAction) (st : State)
  : State :=
  {| isTyping := isTyping st; currentMode := currentMode st;
     uploadedPDFs := uploadedPDFs st; menuOpen := menuOpen st;
     pendingClearAction := a;
     historyMessages := historyMessages st; pdfMessages := pdfMessages st;
     inputValue := inputValue st; view := view st;
     effects := effects st |}.

Definition set_historyMessages (l : list Message) (st : State) : State :=
  {| isTyping := isTyping st; currentMode := currentMode st;
     uploadedPDFs := uploadedPDFs st; menuOpen := menuOpen st;
     pendingClearAction := pendingClearAction st;
     historyMessages := l; pdfMessages := pdfMessages st;
     inputValue := inputValue st; view := view st;
     effects := effects st |}.

Definition set_pdfMessages (l : list Message) (st : State) : State :=
  {| isTyping := isTyping st; currentMode := currentMode st;
     uploadedPDFs := uploadedPDFs st; menuOpen := menuOpen st;
     pendingClearAction := pendingClearAction st;
     historyMessages := historyMessages st; pdfMessages := l;
     inputValue := inputValue st; view := view st;
     effects := effects st |}.

Definition set_inputValue (s : jsstr) (st : State) : State :=
  {| isTyping := isTyping st; currentMode := currentMode st;
     uploadedPDFs := uploadedPDFs st; menuOpen := menuOpen st;
     pendingClearAction := pendingClearAction st;
     historyMessages := historyMessages st; pdfMessages := pdfMessages st;
     inputValue := s; view := view st;
     effects := effects st |}.

Definition set_view (v : View) (st : State) : State :=
  {| isTyping := isTyping st; currentMode := currentMode st;
     uploadedPDFs := uploadedPDFs st; menuOpen := menuOpen st;
     pendingClearAction := pendingClearAction st;
     historyMessages := historyMessages st; pdfMessages := pdfMessages st;
     inputValue := inputValue st; view := v;
     effects := effects st |}.

Definition emit (e : Effect) (st : State) : State :=
  {| isTyping := isTyping st; currentMode := currentMode st;
     uploadedPDFs := uploadedPDFs st; menuOpen := menuOpen st;
     pendingClearAction := pendingClearAction st;
     historyMessages := historyMessages st; pdfMessages := pdfMessages st;
     inputValue := inputValue st; view := view st;
     effects := effects st ++ [e] |}.

Definition on_view (f : View -> View) (st : State) : State :=
  set_view (f (view st)) st.

(** ** The controller *)

Definition mode_history : jsstr := js "history".
Definition mode_pdf : jsstr := js "pdf".
Definition pdf_mime : jsstr := js "application/pdf".

(** The two fallback answers of [sendMessage] (app.js 152 and 158). *)
Definition fallbackProcessing : jsstr :=
  js "Xin lỗi, đã có lỗi xảy ra khi xử lý câu hỏi của bạn. Vui lòng thử lại.".

Definition fallbackConnection : jsstr :=
  js "Xin lỗi, không thể kết nối với server. Vui lòng kiểm tra kết nối mạng và thử lại.".

(** The label shown when [new URL(url)] throws (app.js 224). *)
Definition referencePlaceholder : jsstr := js "Nguồn tham khảo".

(** [file.size > 10 * 1024 * 1024] *)
Definition maxPdfSize : N := 10 * 1024 * 1024.

(** [response.ok]: a status in the range 200-299. *)
Definition response_ok (status : N) : bool :=
  (200 <=? status) && (status <=? 299).

#[global] Arguments mode_history : simpl never.
#[global] Arguments mode_pdf : simpl never.
#[global] Arguments pdf_mime : simpl never.
#[global] Arguments fallbackProcessing : simpl never.
#[global] Arguments fallbackConnection : simpl never.
#[global] Arguments referencePlaceholder : simpl never.
#[global] Arguments maxPdfSize : simpl never.

Definition isEmpty (s : jsstr) : bool :=
  match s with [] => true | _ => false end.

Fixpoint removeTyping (l : list Node) : list Node :=
  match l with
  | [] => []
  | TypingNode :: r => r
  | n :: r => n :: removeTyping r
  end.

Definition hasDataMode (m : jsstr) (n : Node) : bool :=
  match n with
  | MessageNode dm _ _ _ => str_eqb dm m
  | TypingNode => false
  end.

Definition sameFile (f : File) (pdf : StagedPdf) : bool :=
  str_eqb (name pdf) (fileName f) && (size pdf =? fileSize f).

(** [uploadedPDFs.findIndex(pdf => pdf.id === fileId)] followed by
    [splice(fileIndex, 1)]: the first entry with that id and the others. *)
Fixpoint spliceById (fileId : N) (l : list StagedPdf)
  : option (StagedPdf * list StagedPdf) :=
  match l with
  | [] => None
  | p :: r =>
    if id p =? fileId then Some (p, r)
    else match spliceById fileId r with
         | Some (q, r') => Some (q, p :: r')
         | None => None
         end
  end.

Section Controller.

Context {U : UrlApi}.

(** app.js 219-226 *)
Definition getDomainFromUrl (url : jsstr) : jsstr :=
  match url_hostname url with
  | Some domain => replace_first (js "www.") [] domain
  | None => referencePlaceholder
  end.

Fixpoint referencesFrom (index : N) (urls : list jsstr) : list Reference :=
  match urls with
  | [] => []
  | url :: r =>
    {| refNumber := index + 1; refUrl := url;
       refLabel := getDomainFromUrl url |} :: referencesFrom (index + 1) r
  end.

(** app.js 162-217.  The reference block is rendered when
    [sourceUrls && Array.isArray(sourceUrls) && sourceUrls.length > 0 &&
    sender === 'ai']. *)
Definition renderMessage (mode content : jsstr) (from : Sender)
    (urls : option (list jsstr)) : Node :=
  MessageNode mode from (formatMessage content)
    match urls with
    | Some (u :: r) => if Sender_eqb from Ai then referencesFrom 0 (u :: r) else []
    | _ => []
    end.

Definition addMessage (content : jsstr) (from : Sender)
    (urls : option (list jsstr)) (st : State) : State :=
  on_view (fun v =>
    set_chat (chat v ++ [renderMessage (currentMode st) content from urls]) v)
    st.

(** app.js 271-278 *)
Definition showTypingIndicator (st : State) : State :=
  on_view (fun v => set_chat (chat v ++ [TypingNode]) v) (set_isTyping true st).

(** app.js 280-286 *)
Definition hideTypingIndicator (st : State) : State :=
  on_view (fun v => set_chat (removeTyping (chat v)) v) (set_isTyping false st).

(** The [catch] block of [sendMessage] (app.js 155-159). *)
Definition sendMessage_catch (error : JsError) (st : State) : State :=
  addMessage fallbackConnection Ai None
    (hideTypingIndicator (emit (ConsoleError error) st)).

Definition pushMessage (m : Message) (st : State) : State :=
  if str_eqb (currentMode st) mode_history
  then set_historyMessages (historyMessages st ++ [m]) st
  else set_pdfMessages (pdfMessages st ++ [m]) st.

(** [sendMessage] up to its first [await] (app.js 59-123).  [tMsg] and
    [tReq] are the values of [new Date().toISOString()] for the stored
    message and for the request.  The result is the new state and the
    request handed to [fetch], if one was issued.  When [currentMode] is
    neither mode no branch assigns [response]; [response.ok] then throws
    and the [catch] block runs at once. *)
Definition sendMessage (tMsg tReq : jsstr) (st : State)
  : State * option Request :=
  let message := trim (inputValue st) in
  if isEmpty message || isTyping st then (st, None)
  else if str_eqb (currentMode st) mode_pdf
          && (N.of_nat (List.length (uploadedPDFs st)) =? 0)
  then (emit (Toast NeedPdfFirst) st, None)
  else
    let st1 := addMessage message User None st in
    let messageObj := {| content := message; sender := User;
                         sourceUrls := None; timestamp := tMsg |} in
    let st2 := pushMessage messageObj st1 in
    let st3 := set_inputValue [] st2 in
    let st4 := showTypingIndicator st3 in
    if str_eqb (currentMode st4) mode_history then
      let req := RagChat message tReq in
      (emit (Fetch req) st4, Some req)
    else if str_eqb (currentMode st4) mode_pdf then
      let req := PdfRagChat message tReq (map file (uploadedPDFs st4)) in
      (emit (Fetch req) st4, Some req)
    else (sendMessage_catch TypeError st4, None).

(** The rest of [sendMessage], run when the request settles
    (app.js 125-159).  [tAi] is the timestamp of the stored answer.  Two
    errors are thrown after the indicator was hidden at line 132, and
    send the control to the [catch] block: [data.success] on a [null]
    body, and, with [success] set and no string [answer], [formatMessage]
    inside [addMessage], before any node is appended. *)
Definition sendMessage_resume (tAi : jsstr) (r : FetchResult) (st : State)
  : State :=
  match r with
  | Rejected reason => sendMessage_catch (FetchRejected reason) st
  | Responded status body =>
    if negb (response_ok status) then sendMessage_catch (HttpError status) st
    else
      match body with
      | Unparsable => sendMessage_catch JsonRejected st
      | ParsedNull => sendMessage_catch TypeError (hideTypingIndicator st)
      | Parsed data =>
        let st1 := hideTypingIndicator st in
        if success data then
          match answer data with
          | None => sendMessage_catch TypeError st1
          | Some text =>
            let st2 := addMessage text Ai (source_urls data) st1 in
            let aiMessageObj := {| content := text; sender := Ai;
                                   sourceUrls := source_urls data;
                                   timestamp := tAi |} in
            pushMessage aiMessageObj st2
          end
        else addMessage fallbackProcessing Ai None st1
      end
  end.

(** app.js 294-299.  [messageInput] is a [textarea]: what is read back
    from its [value] is the query with its newlines normalised. *)
Definition sendSampleQuery (query tMsg tReq : jsstr) (st : State)
  : State * option Request :=
  sendMessage tMsg tReq (set_inputValue (normalizeNewlines query) st).

(** app.js 302-314 *)
Definition toggleMenu (st : State) : State :=
  set_menuOpen (negb (menuOpen st)) st.

(** app.js 452-456 *)
Definition closeMenus (st : State) : State := set_menuOpen false st.

(** app.js 366-371 *)
Definition updateCurrentModeText (st : State) : State :=
  on_view (set_currentModeText
    (if str_eqb (currentMode st) mode_history then ForHistory else ForPdf)) st.

(** app.js 373-388.  Every node with class [message-animation] whose id
    does not contain ["Welcome"] is removed: the message nodes (no id) and
    the typing indicator (its template carries the class, see
    templates/backup/index.html 481, and its id is
    [activeTypingIndicator]).  The stored thread is then rendered again. *)
Definition loadMessages (mode : jsstr) (st : State) : State :=
  let messagesToLoad :=
    if str_eqb mode mode_history then historyMessages st else pdfMessages st in
  fold_left (fun s msg => addMessage (content msg) (sender msg) (sourceUrls msg) s)
    messagesToLoad (on_view (set_chat []) st).

(** app.js 327-364 *)
Definition switchMode (mode : jsstr) (st : State) : State :=
  let st1 := set_currentMode mode st in
  let st2 := on_view (set_activeMenuItem None) st1 in
  let st3 :=
    if str_eqb mode mode_history then
      loadMessages mode_history
        (on_view (fun v => set_prompt ForHistory
                   (set_pdfWelcomeHidden true
                   (set_historyWelcomeHidden false
                   (set_activeMenuItem (Some 0%nat) v)))) st2)
    else if str_eqb mode mode_pdf then
      loadMessages mode_pdf
        (on_view (fun v => set_prompt ForPdf
                   (set_pdfWelcomeHidden false
                   (set_historyWelcomeHidden true
                   (set_activeMenuItem (Some 1%nat) v)))) st2)
    else st2 in
  set_menuOpen false (updateCurrentModeText st3).

(** The function passed to [showConfirmation] by [clearHistoryMode]
    (app.js 402-417) and by [clearPDFChat] (app.js 427-448). *)
Definition runClearAction (a : ClearAction) (st : State) : State :=
  match a with
  | ClearHistoryThread =>
    let st1 := set_historyMessages [] st in
    let st2 := on_view (fun v =>
      set_chat (filter (fun n => negb (hasDataMode mode_history n)) (chat v)) v)
      st1 in
    let st3 := if str_eqb (currentMode st2) mode_history
               then on_view (set_historyWelcomeHidden false) st2 else st2 in
    closeMenus (emit (Toast HistoryCleared) st3)
  | ClearPdfThread =>
    let st1 := set_uploadedPDFs [] (set_pdfMessages [] st) in
    let st2 := on_view (fun v =>
      set_chat (filter (fun n => negb (hasDataMode mode_pdf n)) (chat v)) v)
      st1 in
    let st3 := if str_eqb (currentMode st2) mode_pdf
               then on_view (set_pdfWelcomeHidden false) st2 else st2 in
    closeMenus (emit (Toast PdfCleared) st3)
  end.

(** app.js 459-467 *)
Definition showConfirmation (onConfirm : ClearAction) (st : State) : State :=
  set_pendingClearAction (Some onConfirm) st.

(** app.js 396-419 *)
Definition clearHistoryMode (st : State) : State :=
  showConfirmation ClearHistoryThread st.

(** app.js 421-450 *)
Definition clearPDFChat (st : State) : State :=
  showConfirmation ClearPdfThread st.

(** app.js 469-473 *)
Definition hideConfirmation (st : State) : State :=
  set_pendingClearAction None st.

(** app.js 475-480 *)
Definition confirmAction (st : State) : State :=
  match pendingClearAction st with
  | Some a => hideConfirmation (runClearAction a st)
  | None => st
  end.

(** The body of the [forEach] of [handleFileSelect] (app.js 490-515);
    [freshId] is the value of [Date.now() + Math.random()] used if the
    file is staged. *)
Definition stageFile (c : File * N) (st : State) : State :=
  let (f, freshId) := c in
  if str_eqb (fileType f) pdf_mime then
    if maxPdfSize <? fileSize f then
      emit (Toast (FileTooLarge (fileName f))) st
    else if existsb (sameFile f) (uploadedPDFs st) then
      emit (Toast (FileDuplicate (fileName f))) st
    else
      emit (Toast (FileAdded (fileName f)))
        (set_uploadedPDFs
           (uploadedPDFs st ++
            [{| name := fileName f; size := fileSize f; file := f;
                id := freshId |}]) st)
  else emit (Toast (FileNotPdf (fileName f))) st.

(** app.js 487-521 *)
Definition handleFileSelect (files : list (File * N)) (st : State) : State :=
  fold_left (fun s c => stageFile c s) files st.

(** The [drop] listener (app.js 583-602). *)
Definition handleDrop (files : list (File * N)) (st : State) : State :=
  match filter (fun c => str_eqb (fileType (fst c)) pdf_mime) files with
  | [] => emit (Toast OnlyPdfSupported) st
  | pdfFiles => handleFileSelect pdfFiles st
  end.

(** app.js 550-558 *)
Definition removePDFFile (fileId : N) (st : State) : State :=
  match spliceById fileId (uploadedPDFs st) with
  | Some (p, rest) =>
    emit (Toast (FileRemoved (name p))) (set_uploadedPDFs rest st)
  | None => st
  end.

(** *** The session as an event loop

    The page runs one handler at a time.  [awaiting] is the suspended
    [sendMessage] call, if any; [Settle] resumes it. *)

Record Session := {
  app : State;
  awaiting : option Request
}.

Inductive Event :=
| Input (text : jsstr)
| Send (tMsg tReq : jsstr)
| SampleQuery (query tMsg tReq : jsstr)
| ToggleMenu
| SwitchMode (mode : jsstr)
| SelectFiles (files : list (File * N))
| DropFiles (files : list (File * N))
| RemoveFile (fileId : N)
| ClearHistory
| ClearPdf
| Confirm
| Cancel
| Settle (tAi : jsstr) (r : FetchResult).

Definition started (s : Session) (p : State * option Request) : Session :=
  {| app := fst p;
     awaiting := match snd p with Some q => Some q | None => awaiting s end |}.

Definition handled (s : Session) (st : State) : Session :=
  {| app := st; awaiting := awaiting s |}.

Definition step (s : Session) (e : Event) : Session :=
  match e with
  | Input text => handled s (set_inputValue text (app s))
  | Send tMsg tReq => started s (sendMessage tMsg tReq (app s))
  | SampleQuery q tMsg tReq => started s (sendSampleQuery q tMsg tReq (app s))
  | ToggleMenu => handled s (toggleMenu (app s))
  | SwitchMode mode => handled s (switchMode mode (app s))
  | SelectFiles files => handled s (handleFileSelect files (app s))
  | DropFiles files => handled s (handleDrop files (app s))
  | RemoveFile fileId => handled s (removePDFFile fileId (app s))
  | ClearHistory => handled s (clearHistoryMode (app s))
  | ClearPdf => handled s (clearPDFChat (app s))
  | Confirm => handled s (confirmAction (app s))
  | Cancel => handled s (hideConfirmation (app s))
  | Settle tAi r =>
    match awaiting s with
    | Some _ => {| app := sendMessage_resume tAi r (app s); awaiting := None |}
    | None => s
    end
  end.

Definition run (s : Session) (events : list Event) : Session :=
  fold_left step events s.

End Controller.

(** The state after page load (app.js 4-14, 24-28): history mode, nothing
    stored, the history welcome panel shown. *)
Definition initialView : View :=
  {| chat := []; historyWelcomeHidden := false; pdfWelcomeHidden := true;
     activeMenuItem := Some 0%nat; prompt := ForHistory;
     currentModeText := ForHistory |}.

Definition initialState : State :=
  {| isTyping := false; currentMode := mode_history; uploadedPDFs := [];
     menuOpen := false; pendingClearAction := None;
     historyMessages := []; pdfMessages := []; inputValue := [];
     view := initialView; effects := [] |}.

Definition initialSession : Session :=
  {| app := initialState; awaiting := None |}.

(** ** Worked inputs *)

Definition newline : string := String (ascii_of_nat 10) EmptyString.

Definition star : unit16 := 0x2A.
Definition linefeed : unit16 := 0x0A.

Definition contains (c : unit16) (s : jsstr) : bool := existsb (N.eqb c) s.

Definition sampleMarkup : jsstr :=
  js ("**bold** and *italic*" ++ newline ++ "line2")%string.

Definition sampleHtml : jsstr := js "<img src=x onerror=alert(1)> & <b>Tom</b>".

(** The label the specification describes: the host without a leading
    ["www."]. *)
Definition spec_label (host : jsstr) : jsstr :=
  match strip_prefix (js "www.") host with
  | Some r => r
  | None => host
  end.

Definition sampleUrlInnerWww : jsstr := js "http://mywww.example.com/x".

Definition sampleUrls : list jsstr :=
  [ js "http://example.com/x"; js "https://www.lichsu.vn/bai-viet?id=3";
    js "khong phai url" ].

Definition blankInputState : State :=
  set_inputValue (js "   ") initialState.

(** Uniqueness of the staged files by (name, size). *)
Definition keysUnique (st : State) : Prop :=
  NoDup (map stagedKey (uploadedPDFs st)).

(** The successive values assigned to the guard [isTyping]. *)
Fixpoint guard_writes (l : list Effect) : list bool :=
  match l with
  | [] => []
  | SetTyping b :: r => b :: guard_writes r
  | _ :: r => guard_writes r
  end.


(** The outcomes that throw after the indicator was hidden at line 132:
    a 2xx response whose body is [null], or one that reports success
    without a string answer. *)
Definition throwsAfterReset (r : FetchResult) : bool :=
  match r with
  | Responded status ParsedNull => response_ok status
  | Responded status (Parsed data) =>
    response_ok status && success data
    && match answer data with None => true | Some _ => false end
  | _ => false
  end.

Definition hideCalls (r : FetchResult) : nat :=
  if throwsAfterReset r then 2%nat else 1%nat.

(** The fallback sentence of each failure: the connection sentence of the
    [catch] block, or the processing sentence of the [else] branch. *)
Definition fallbackText (r : FetchResult) : jsstr :=
  match r with
  | Responded status (Parsed data) =>
    if response_ok status then fallbackProcessing else fallbackConnection
  | _ => fallbackConnection
  end.

(** Transport failure (rejected fetch, status outside 200-299) or
    backend-reported failure ([success:false] in a parsed body). *)
Definition failed (r : FetchResult) : Prop :=
  match r with
  | Rejected _ => True
  | Responded status body =>
    response_ok status = false
    \/ exists data, body = Parsed data /\ success data = false
  end.

Definition sampleTime : jsstr := js "2025-01-01T00:00:00.000Z".

Definition samplePdf : File :=
  {| fileName := js "su-viet.pdf"; fileSize := 2048; fileType := pdf_mime |}.

Definition otherPdf : File :=
  {| fileName := js "dai-viet.pdf"; fileSize := 4096; fileType := pdf_mime |}.

Definition answerA : ResponseData :=
  {| success := true; answer := Some (js "A"); source_urls := Some [] |}.


(** [quiet st st']: going from [st] to [st'] left the guard alone and
    produced toasts only. *)
Definition quiet (st st' : State) : Prop :=
  isTyping st' = isTyping st
  /\ exists ns, effects st' = effects st ++ map Toast ns.

Definition stagedOnce : State :=
  handleFileSelect [(samplePdf, 1)] initialState.

Definition sampleUploadEvents : list Event :=
  [ SelectFiles [(samplePdf, 1); (samplePdf, 2); (otherPdf, 3)];
    RemoveFile 1;
    SelectFiles [(samplePdf, 4)];
    ClearPdf; Confirm;
    DropFiles [(otherPdf, 5); (otherPdf, 6)] ].

(** A question asked in history mode, still waiting for its answer. *)
Definition askedInHistory : list Event :=
  [ Input (js "Q"); Send sampleTime sampleTime ].



Definition userQ : Message :=
  {| content := js "Q"; sender := User; sourceUrls := None;
     timestamp := sampleTime |}.

Definition aiA : Message :=
  {| content := js "A"; sender := Ai; sourceUrls := Some [];
     timestamp := sampleTime |}.

(** ** Further notions *)

(** The callback of the [forEach] of [loadMessages] (app.js 385-387): the
    node rendered for a stored message under the mode [mode]. *)
Definition renderStored {U : UrlApi} (mode : jsstr) (msg : Message) : Node :=
  renderMessage mode (content msg) (sender msg) (sourceUrls msg).

Definition isTypingNode (n : Node) : bool :=
  match n with TypingNode => true | MessageNode _ _ _ _ => false end.

(** Number of typing indicators among the chat nodes. *)
Definition typingNodes (l : list Node) : nat :=
  List.length (filter isTypingNode l).

#[global] Arguments typingNodes : simpl never.

(** At most one message appended to exactly one of the two threads. *)
Definition appendsOne (h p h' p' : list Message) : Prop :=
  exists added,
    (List.length added <= 1)%nat
    /\ ((h' = h ++ added /\ p' = p) \/ (h' = h /\ p' = p ++ added)).

(** What an event may do to the two threads: [sendMessage] and its
    continuation append, a confirmed clear empties the thread it was
    requested for, anything else leaves both alone. *)
Definition threadsAfter (e : Event) (pending : option ClearAction)
    (h p h' p' : list Message) : Prop :=
  match e with
  | Send _ _ | SampleQuery _ _ _ | Settle _ _ => appendsOne h p h' p'
  | Confirm =>
    match pending with
    | Some ClearHistoryThread => h' = [] /\ p' = p
    | Some ClearPdfThread => h' = h /\ p' = []
    | None => h' = h /\ p' = p
    end
  | _ => h' = h /\ p' = p
  end.

(** The toast [handleFileSelect] owes a candidate, given what is staged
    when its turn comes: not a PDF, else too large, else already staged,
    else added. *)
Definition verdict (c : File * N) (staged : list StagedPdf) : Notice :=
  let f := fst c in
  if negb (str_eqb (fileType f) pdf_mime) then FileNotPdf (fileName f)
  else if maxPdfSize <? fileSize f then FileTooLarge (fileName f)
  else if existsb (sameFile f) staged then FileDuplicate (fileName f)
  else FileAdded (fileName f).

(** A request worth sending: a non-empty message without surrounding
    white space, and at least one file for the pdf endpoint. *)
Definition validRequest (e : Effect) : bool :=
  match e with
  | Fetch (RagChat message _) =>
    negb (isEmpty message) && str_eqb (trim message) message
  | Fetch (PdfRagChat message _ pdfs) =>
    negb (isEmpty message) && str_eqb (trim message) message
    && negb (N.of_nat (List.length pdfs) =? 0)
  | _ => true
  end.

(** What [handleFileSelect] checked before staging an entry. *)
Definition stagedOk (p : StagedPdf) : Prop :=
  fileType (file p) = pdf_mime
  /\ size p <= maxPdfSize
  /\ name p = fileName (file p)
  /\ size p = fileSize (file p).

(** [occurs pat s]: [pat] occurs somewhere in [s]. *)
Fixpoint occurs (pat s : jsstr) : bool :=
  match strip_prefix pat s with
  | Some _ => true
  | None =>
    match s with
    | [] => false
    | _ :: s' => occurs pat s'
    end
  end.

Definition has_line_terminator (s : jsstr) : bool :=
  existsb is_line_terminator s.

Definition tenMegabytePdf : File :=
  {| fileName := js "toan-thu.pdf"; fileSize := 10485760;
     fileType := pdf_mime |}.

Definition notAPdf : File :=
  {| fileName := js "ban-do.png"; fileSize := 512; fileType := js "image/png" |}.

Definition stagedTwice : State :=
  handleFileSelect [(samplePdf, 1); (otherPdf, 3)] initialState.

Definition pdfModeReady : State :=
  set_inputValue (js "  Noi dung chinh?  ")
    (switchMode (U := Url.simple) mode_pdf stagedTwice).

Definition strangeMode : State :=
  set_inputValue (js "Q") (switchMode (U := Url.simple) (js "settings") initialState).

(** The message object built by [sendMessage] (app.js 73-77) and the
    state it has reached when it calls [fetch] (app.js 70-91). *)
Definition userMessage (tMsg : jsstr) (st : State) : Message :=
  {| content := trim (inputValue st); sender := User; sourceUrls := None;
     timestamp := tMsg |}.

Definition dispatched {U : UrlApi} (tMsg : jsstr) (st : State) : State :=
  showTypingIndicator
    (set_inputValue []
       (pushMessage (userMessage tMsg st)
          (addMessage (trim (inputValue st)) User None st))).

(** [sameButUploads st st']: only the staged files and the trace may
    differ. *)
Definition sameButUploads (st st' : State) : Prop :=
  historyMessages st' = historyMessages st
  /\ pdfMessages st' = pdfMessages st
  /\ view st' = view st
  /\ isTyping st' = isTyping st
  /\ currentMode st' = currentMode st.


Definition requestsValid (st : State) : Prop :=
  Forall (fun e => validRequest e = true) (effects st).

Definition stagedAllOk (st : State) : Prop :=
  Forall stagedOk (uploadedPDFs st).

(** The reference entries of a rendered node. *)
Definition nodeRefs (n : Node) : list Reference :=
  match n with
  | MessageNode _ _ _ refs => refs
  | TypingNode => []
  end.

Definition stagedEntry (f : File) (freshId : N) : StagedPdf :=
  {| name := fileName f; size := fileSize f; file := f; id := freshId |}.

Definition isPdf (c : File * N) : bool := str_eqb (fileType (fst c)) pdf_mime.

(** A query of two lines separated by CR LF, with a lone CR at the end. *)
Definition twoLineQuery : jsstr :=
  js "Ly Thai To" ++ [0x0D; 0x0A] ++ js "la ai?" ++ [0x0D].

Definition sampleBatch : list (File * N) :=
  [ (samplePdf, 11); (notAPdf, 12); (otherPdf, 13); (otherPdf, 14) ].

Definition answerRefused : ResponseData :=
  {| success := false; answer := None; source_urls := None |}.

(** * Properties *)

(** ** Strings *)

Lemma str_eqb_refl (a : jsstr) : str_eqb a a = true.
Proof.
  induction a as [|x a IH]; simpl; [reflexivity|].
  now rewrite N.eqb_refl, IH.
Qed.

Lemma str_eqb_eq (a b : jsstr) : str_eqb a b = true <-> a = b.
Proof.
  split.
  - revert b; induction a as [|x a IH]; intros [|y b]; simpl; try discriminate.
    + reflexivity.
    + intros E. apply andb_true_iff in E as [E1 E2].
      apply N.eqb_eq in E1. apply IH in E2. now subst.
  - intros ->. apply str_eqb_refl.
Qed.

Lemma str_eqb_neq (a b : jsstr) : str_eqb a b = false <-> a <> b.
Proof.
  rewrite <- str_eqb_eq. destruct (str_eqb a b); split; congruence.
Qed.

Lemma strip_prefix_length (p s r : jsstr) :
  strip_prefix p s = Some r ->
  List.length s = (List.length p + List.length r)%nat.
Proof.
  revert s; induction p as [|x p IH]; intros s; simpl.
  - now intros [= ->].
  - destruct s as [|y s]; [discriminate|].
    destruct (x =? y); [|discriminate].
    intros E. apply IH in E. simpl. lia.
Qed.

Lemma close_lazy_length (d s cap rest : jsstr) :
  close_lazy d s = Some (cap, rest) ->
  List.length s = (List.length cap + List.length d + List.length rest)%nat.
Proof.
  revert cap; induction s as [|c s IH]; intros cap; simpl.
  - destruct (strip_prefix d []) eqn:E; [|discriminate].
    intros [= <- <-]. apply strip_prefix_length in E. simpl in *. lia.
  - destruct (strip_prefix d (c :: s)) eqn:E.
    + intros [= <- <-]. apply strip_prefix_length in E. simpl in *. lia.
    + destruct (is_line_terminator c); [discriminate|].
      destruct (close_lazy d s) as [[cap' rest']|]; [|discriminate].
      intros [= <- <-]. specialize (IH cap' eq_refl). simpl. lia.
Qed.

(** The scan of [replace_pair] never runs out of fuel: any amount of at
    least [length s] gives the same result. *)
Lemma replace_pair_go_fuel (x : unit16) (d opn cls : jsstr) (n m : nat) :
  forall s, (List.length s <= n)%nat -> (List.length s <= m)%nat ->
  replace_pair_go n (x :: d) opn cls s = replace_pair_go m (x :: d) opn cls s.
Proof.
  revert m; induction n as [|n IH]; intros m s Hn Hm.
  - destruct s; [|simpl in Hn; lia]. now destruct m.
  - destruct m as [|m].
    + destruct s; [reflexivity|simpl in Hm; lia].
    + destruct s as [|c s]; [reflexivity|].
      cbn [replace_pair_go]. simpl in Hn, Hm.
      destruct (strip_prefix (x :: d) (c :: s)) as [inner|] eqn:E.
      * destruct (close_lazy (x :: d) inner) as [[cap rest]|] eqn:E'.
        -- apply strip_prefix_length in E. apply close_lazy_length in E'.
           simpl in E, E'. do 3 f_equal. apply IH; lia.
        -- f_equal. apply IH; lia.
      * f_equal. apply IH; lia.
Qed.

Lemma strip_prefix_absent (x : unit16) (d s : jsstr) :
  contains x s = false -> strip_prefix (x :: d) s = None.
Proof.
  unfold contains.
  destruct s as [|y s]; cbn [existsb strip_prefix]; [reflexivity|].
  destruct (x =? y); [discriminate|reflexivity].
Qed.

Lemma replace_pair_go_absent (x : unit16) (d opn cls : jsstr) (n : nat) :
  forall s, contains x s = false ->
  replace_pair_go n (x :: d) opn cls s = s.
Proof.
  induction n as [|n IH]; intros s H; [reflexivity|].
  destruct s as [|c s]; [reflexivity|].
  cbn [replace_pair_go]. rewrite (strip_prefix_absent _ _ _ H).
  f_equal. apply IH. unfold contains in *. cbn [existsb] in H.
  now apply orb_false_iff in H as [_ H].
Qed.

Lemma replace_newlines_absent (rep s : jsstr) :
  contains linefeed s = false -> replace_newlines rep s = s.
Proof.
  unfold contains.
  induction s as [|c s IH]; cbn [existsb replace_newlines]; [reflexivity|].
  intros H. apply orb_false_iff in H as [H1 H2].
  rewrite N.eqb_sym in H1. fold linefeed. rewrite H1.
  f_equal. now apply IH.
Qed.

(** [trim] leaves nothing of a string made of white space and line
    terminators only, and only of such a string. *)
Lemma trimStart_blank (s : jsstr) :
  trimStart s = [] <-> forallb trimmable s = true.
Proof.
  induction s as [|c s IH]; cbn [trimStart forallb]; [tauto|].
  destruct (trimmable c); cbn [andb]; [exact IH|].
  split; discriminate.
Qed.

Lemma trimStart_head (s : jsstr) (c : unit16) (r : jsstr) :
  trimStart s = c :: r -> trimmable c = false.
Proof.
  induction s as [|x s IH]; cbn [trimStart]; [discriminate|].
  destruct (trimmable x) eqn:E; [exact IH|].
  now intros [= <- _].
Qed.

Lemma trim_blank (s : jsstr) :
  trim s = [] <-> forallb trimmable s = true.
Proof.
  rewrite <- trimStart_blank. unfold trim, trimEnd. split.
  - intros H. apply (f_equal (@rev unit16)) in H.
    rewrite rev_involutive in H. cbn [rev] in H.
    apply trimStart_blank in H. rewrite forallb_forall in H.
    destruct (trimStart s) as [|c r] eqn:E; [reflexivity|].
    apply trimStart_head in E.
    rewrite (H c) in E; [discriminate|].
    apply in_rev. rewrite rev_involutive. now left.
  - now intros ->.
Qed.

(** ** Formatting *)

Section Rendering.

Context {U : UrlApi}.

(** C7.  [formatMessage] is the composition bold, then italic, then line
    breaks; on the sample ["**bold** and *italic*\nline2"] the three stages
    give in turn a [<strong>] span, an [<em>] span and a [<br>] in front
    of ["line2"].  The order matters: italic before bold gives another
    result on the same input. *)
Theorem formatMessage_pipeline_order :
  (forall content,
     formatMessage content = formatBreaks (formatItalic (formatBold content)))
  /\ formatBold sampleMarkup
     = js ("<strong>bold</strong> and *italic*" ++ newline ++ "line2")%string
  /\ formatItalic (formatBold sampleMarkup)
     = js ("<strong>bold</strong> and <em>italic</em>" ++ newline ++ "line2")%string
  /\ formatMessage sampleMarkup
     = js "<strong>bold</strong> and <em>italic</em><br>line2"
  /\ formatBreaks (formatBold (formatItalic sampleMarkup))
     = js "<em></em>bold<em></em> and <em>italic</em><br>line2".
Proof.
  split; [reflexivity|].
  repeat split; vm_compute; reflexivity.
Qed.

(** C10.  No escaping: content without ['*'] and without a line feed is
    returned unchanged by [formatMessage], and [addMessage] puts it as it
    is into the body of the appended node. *)
Theorem formatMessage_no_escaping (content : jsstr) :
  contains star content = false ->
  contains linefeed content = false ->
  formatMessage content = content
  /\ forall st from urls, exists refs,
       chat (view (addMessage content from urls st))
       = chat (view st) ++ [MessageNode (currentMode st) from content refs].
Proof.
  intros Hs Hn.
  assert (E : formatMessage content = content).
  { unfold formatMessage, formatBreaks, formatItalic, formatBold, replace_pair.
    change (js "**") with (star :: js "*").
    change (js "*") with (star :: []).
    rewrite (replace_pair_go_absent star (js "*") _ _ _ content Hs).
    rewrite (replace_pair_go_absent star [] _ _ _ content Hs).
    now apply replace_newlines_absent. }
  split; [exact E|].
  intros st from urls. unfold addMessage, renderMessage. cbn.
  rewrite E. eexists. reflexivity.
Qed.

End Rendering.

Lemma formatMessage_no_escaping_witness :
  formatMessage sampleHtml = sampleHtml
  /\ forall st from urls, exists refs,
       chat (view (addMessage (U := Url.simple) sampleHtml from urls st))
       = chat (view st) ++ [MessageNode (currentMode st) from sampleHtml refs].
Proof.
  apply (@formatMessage_no_escaping Url.simple sampleHtml); reflexivity.
Defined.

(** ** Reference labels *)

Section Labels.

Context {U : UrlApi}.

(** Label derivation is a total function: it yields the placeholder when
    the parser throws. *)
Lemma getDomainFromUrl_unparsable (url : jsstr) :
  url_hostname url = None -> getDomainFromUrl url = referencePlaceholder.
Proof. unfold getDomainFromUrl. now intros ->. Qed.

Lemma replace_first_unfold (pat rep s : jsstr) :
  replace_first pat rep s
  = match strip_prefix pat s with
    | Some rest => rep ++ rest
    | None => match s with
              | [] => []
              | c :: s' => c :: replace_first pat rep s'
              end
    end.
Proof. destruct s; reflexivity. Qed.

Lemma strip_prefix_app (pat rest : jsstr) :
  strip_prefix pat (pat ++ rest) = Some rest.
Proof.
  induction pat as [|x pat IH]; simpl; [reflexivity|].
  now rewrite N.eqb_refl.
Qed.

Lemma replace_first_prefix (pat rep rest : jsstr) :
  replace_first pat rep (pat ++ rest) = rep ++ rest.
Proof. now rewrite replace_first_unfold, strip_prefix_app. Qed.

(** A host that starts with ["www."] loses exactly that prefix. *)
Lemma getDomainFromUrl_leading_www (url rest : jsstr) :
  url_hostname url = Some (js "www." ++ rest) ->
  getDomainFromUrl url = rest.
Proof.
  unfold getDomainFromUrl. intros ->.
  now rewrite replace_first_prefix.
Qed.

End Labels.

Lemma getDomainFromUrl_samples :
  map (getDomainFromUrl (U := Url.simple)) sampleUrls
  = [ js "example.com"; js "lichsu.vn"; referencePlaceholder ].
Proof. vm_compute. reflexivity. Qed.

(** The reference block numbers the links from 1 and labels each with
    [getDomainFromUrl]. *)
Lemma renderMessage_references (U : UrlApi) (mode content : jsstr) :
  renderMessage mode content Ai (Some sampleUrls)
  = MessageNode mode Ai (formatMessage content)
      [ {| refNumber := 1; refUrl := js "http://example.com/x";
           refLabel := getDomainFromUrl (js "http://example.com/x") |};
        {| refNumber := 2; refUrl := js "https://www.lichsu.vn/bai-viet?id=3";
           refLabel := getDomainFromUrl (js "https://www.lichsu.vn/bai-viet?id=3") |};
        {| refNumber := 3; refUrl := js "khong phai url";
           refLabel := getDomainFromUrl (js "khong phai url") |} ].
Proof. reflexivity. Qed.

(** C8.  The label of ["http://mywww.example.com/x"]: the host is
    [mywww.example.com], which has no leading ["www."], yet
    [replace('www.', '')] removes the occurrence inside it. *)
Theorem getDomainFromUrl_strips_inner_www :
  Url.hostname sampleUrlInnerWww = Some (js "mywww.example.com")
  /\ getDomainFromUrl (U := Url.simple) sampleUrlInnerWww = js "myexample.com"
  /\ spec_label (js "mywww.example.com") = js "mywww.example.com".
Proof. repeat split; vm_compute; reflexivity. Qed.

(** ** Mode switching and clearing *)

Section Threads.

Context {U : UrlApi}.

Lemma set_view_set_view (v w : View) (st : State) :
  set_view w (set_view v st) = set_view w st.
Proof. reflexivity. Qed.

Lemma addMessage_set_view content from urls st :
  exists v, addMessage content from urls st = set_view v st.
Proof. eexists. reflexivity. Qed.

Lemma loadMessages_set_view (mode : jsstr) (st : State) :
  exists v, loadMessages mode st = set_view v st.
Proof.
  unfold loadMessages.
  generalize (if str_eqb mode mode_history
              then historyMessages st else pdfMessages st) as l.
  intros l. change (on_view (set_chat []) st) with (set_view (set_chat [] (view st)) st).
  generalize (set_chat [] (view st)) as v.
  induction l as [|m l IH]; intros v; simpl.
  - now exists v.
  - apply IH.
Qed.

(** C6.  With a mode that is neither ['history'] nor ['pdf'],
    [switchMode] leaves both threads, the staged files, the chat nodes,
    the welcome panels and the prompt as they are, but it does store the
    given value in [currentMode]; it also clears the menu highlight,
    shows the pdf wording in the clear submenu and closes the menu. *)
Theorem switchMode_unknown_mode (mode : jsstr) (st : State) :
  mode <> mode_history -> mode <> mode_pdf ->
  let st' := switchMode mode st in
  currentMode st' = mode
  /\ historyMessages st' = historyMessages st
  /\ pdfMessages st' = pdfMessages st
  /\ uploadedPDFs st' = uploadedPDFs st
  /\ chat (view st') = chat (view st)
  /\ historyWelcomeHidden (view st') = historyWelcomeHidden (view st)
  /\ pdfWelcomeHidden (view st') = pdfWelcomeHidden (view st)
  /\ prompt (view st') = prompt (view st)
  /\ activeMenuItem (view st') = None
  /\ currentModeText (view st') = ForPdf
  /\ menuOpen st' = false.
Proof.
  intros Hh Hp. apply str_eqb_neq in Hh, Hp.
  unfold switchMode. rewrite Hh, Hp. cbn. rewrite Hh. repeat split; reflexivity.
Qed.

(** C9.  Asking for a clear only fills the confirmation slot; once
    confirmed, clearing the history thread empties it and keeps the pdf
    thread and the staged files, and clearing the pdf thread empties it
    and the staged files and keeps the history thread. *)
Theorem clear_thread_frame (st : State) :
  (historyMessages (clearHistoryMode st) = historyMessages st
   /\ pdfMessages (clearPDFChat st) = pdfMessages st
   /\ uploadedPDFs (clearPDFChat st) = uploadedPDFs st)
  /\ (historyMessages (confirmAction (clearHistoryMode st)) = []
      /\ pdfMessages (confirmAction (clearHistoryMode st)) = pdfMessages st
      /\ uploadedPDFs (confirmAction (clearHistoryMode st)) = uploadedPDFs st)
  /\ (pdfMessages (confirmAction (clearPDFChat st)) = []
      /\ uploadedPDFs (confirmAction (clearPDFChat st)) = []
      /\ historyMessages (confirmAction (clearPDFChat st)) = historyMessages st).
Proof.
  split; [repeat split|].
  unfold confirmAction, clearHistoryMode, clearPDFChat, showConfirmation.
  cbn [pendingClearAction set_pendingClearAction runClearAction].
  split.
  - cbn. destruct (str_eqb (currentMode st) mode_history); repeat split.
  - cbn. destruct (str_eqb (currentMode st) mode_pdf); repeat split.
Qed.

(** C4.  [sendMessage] returns at once when the input is empty or made of
    white space only, when a request is in flight, or when the mode is ['pdf'] and nothing
    is staged: no request is issued, no node is appended, and the threads
    and the staged files are unchanged; at most the "upload a PDF first"
    toast is shown. *)
Theorem sendMessage_rejected (tMsg tReq : jsstr) (st : State) :
  forallb trimmable (inputValue st) = true
  \/ isTyping st = true
  \/ (currentMode st = mode_pdf /\ uploadedPDFs st = []) ->
  let st' := fst (sendMessage tMsg tReq st) in
  snd (sendMessage tMsg tReq st) = None
  /\ historyMessages st' = historyMessages st
  /\ pdfMessages st' = pdfMessages st
  /\ uploadedPDFs st' = uploadedPDFs st
  /\ view st' = view st
  /\ isTyping st' = isTyping st
  /\ (effects st' = effects st
      \/ effects st' = effects st ++ [Toast NeedPdfFirst]).
Proof.
  intros H. unfold sendMessage.
  destruct (isEmpty (trim (inputValue st)) || isTyping st) eqn:E.
  - cbn. repeat split; auto.
  - apply orb_false_iff in E as [E1 E2].
    destruct H as [H|[H|[Hm Hu]]].
    + apply trim_blank in H. rewrite H in E1. discriminate.
    + congruence.
    + rewrite Hm, Hu. rewrite str_eqb_refl. cbn. repeat split; auto.
Qed.

End Threads.

Lemma switchMode_unknown_mode_witness :
  let st' := switchMode (U := Url.simple) (js "settings") initialState in
  currentMode st' = js "settings"
  /\ historyMessages st' = historyMessages initialState
  /\ pdfMessages st' = pdfMessages initialState
  /\ uploadedPDFs st' = uploadedPDFs initialState
  /\ chat (view st') = chat (view initialState)
  /\ historyWelcomeHidden (view st') = historyWelcomeHidden (view initialState)
  /\ pdfWelcomeHidden (view st') = pdfWelcomeHidden (view initialState)
  /\ prompt (view st') = prompt (view initialState)
  /\ activeMenuItem (view st') = None
  /\ currentModeText (view st') = ForPdf
  /\ menuOpen st' = false.
Proof.
  apply (@switchMode_unknown_mode Url.simple (js "settings") initialState);
    vm_compute; discriminate.
Defined.

(** C6, as the specification words it, fails: an unknown mode is stored in
    [currentMode]. *)
Lemma switchMode_unknown_mode_not_noop :
  currentMode (switchMode (U := Url.simple) (js "settings") initialState)
  <> currentMode initialState.
Proof. vm_compute. discriminate. Qed.

Lemma sendMessage_rejected_witness :
  let st' := fst (sendMessage (U := Url.simple) [] [] blankInputState) in
  snd (sendMessage (U := Url.simple) [] [] blankInputState) = None
  /\ historyMessages st' = historyMessages blankInputState
  /\ pdfMessages st' = pdfMessages blankInputState
  /\ uploadedPDFs st' = uploadedPDFs blankInputState
  /\ view st' = view blankInputState
  /\ isTyping st' = isTyping blankInputState
  /\ (effects st' = effects blankInputState
      \/ effects st' = effects blankInputState ++ [Toast NeedPdfFirst]).
Proof.
  apply (@sendMessage_rejected Url.simple [] [] blankInputState).
  left. reflexivity.
Defined.

(** ** Staged uploads *)

Section Uploads.

Context {U : UrlApi}.

Lemma sameFile_key (f : File) (l : list StagedPdf) :
  existsb (sameFile f) l = true
  <-> In (fileName f, fileSize f) (map stagedKey l).
Proof.
  induction l as [|p l IH]; cbn [existsb map In].
  - split; [discriminate|tauto].
  - rewrite orb_true_iff, IH.
    split; (intros [E|I]; [left|now right]).
    + unfold sameFile in E. apply andb_true_iff in E as [E1 E2].
      apply str_eqb_eq in E1. apply N.eqb_eq in E2.
      unfold stagedKey. congruence.
    + unfold stagedKey in E. injection E as E1 E2.
      unfold sameFile. now rewrite E1, E2, str_eqb_refl, N.eqb_refl.
Qed.

Lemma stageFile_uploads (c : File * N) (st : State) :
  uploadedPDFs (stageFile c st) = uploadedPDFs st
  \/ (existsb (sameFile (fst c)) (uploadedPDFs st) = false
      /\ uploadedPDFs (stageFile c st)
         = uploadedPDFs st ++
           [{| name := fileName (fst c); size := fileSize (fst c);
               file := fst c; id := snd c |}]).
Proof.
  destruct c as [f i]. unfold stageFile. cbn [fst snd].
  destruct (str_eqb (fileType f) pdf_mime); [|now left].
  destruct (maxPdfSize <? fileSize f); [now left|].
  destruct (existsb (sameFile f) (uploadedPDFs st)) eqn:E; [now left|].
  right. split; reflexivity.
Qed.

Lemma stageFile_unique (c : File * N) (st : State) :
  keysUnique st -> keysUnique (stageFile c st).
Proof.
  unfold keysUnique. intros H.
  destruct (stageFile_uploads c st) as [->|[E ->]]; [exact H|].
  rewrite map_app. apply NoDup_app; [exact H|repeat constructor; simpl; tauto|].
  intros k Hk [<-|[]]. cbn in Hk.
  apply sameFile_key in Hk. congruence.
Qed.

Lemma handleFileSelect_unique (files : list (File * N)) (st : State) :
  keysUnique st -> keysUnique (handleFileSelect files st).
Proof.
  unfold handleFileSelect. revert st.
  induction files as [|c files IH]; intros st H; simpl; [exact H|].
  apply IH. now apply stageFile_unique.
Qed.

Lemma handleDrop_unique (files : list (File * N)) (st : State) :
  keysUnique st -> keysUnique (handleDrop files st).
Proof.
  unfold handleDrop. intros H.
  destruct (filter _ files); [exact H|].
  now apply handleFileSelect_unique.
Qed.

Lemma spliceById_split (fileId : N) (l : list StagedPdf) p rest :
  spliceById fileId l = Some (p, rest) ->
  exists l1 l2, l = l1 ++ p :: l2 /\ rest = l1 ++ l2.
Proof.
  revert rest; induction l as [|q l IH]; intros rest; simpl; [discriminate|].
  destruct (id q =? fileId).
  - intros [= -> ->]. now exists [], rest.
  - destruct (spliceById fileId l) as [[p' r']|]; [|discriminate].
    intros [= -> <-]. destruct (IH r' eq_refl) as (l1 & l2 & -> & ->).
    now exists (q :: l1), l2.
Qed.

Lemma removePDFFile_unique (fileId : N) (st : State) :
  keysUnique st -> keysUnique (removePDFFile fileId st).
Proof.
  unfold keysUnique, removePDFFile. intros H.
  destruct (spliceById fileId (uploadedPDFs st)) as [[p rest]|] eqn:E;
    [|exact H].
  apply spliceById_split in E as (l1 & l2 & E & ->). cbn.
  rewrite E, map_app in H. cbn [map] in H. apply NoDup_remove_1 in H.
  now rewrite map_app.
Qed.

Lemma runClearAction_unique (a : ClearAction) (st : State) :
  keysUnique st -> keysUnique (runClearAction a st).
Proof.
  unfold keysUnique. intros H. destruct a; cbn.
  - now destruct (str_eqb (currentMode st) mode_history).
  - destruct (str_eqb (currentMode st) mode_pdf); constructor.
Qed.

Lemma confirmAction_unique (st : State) :
  keysUnique st -> keysUnique (confirmAction st).
Proof.
  unfold confirmAction. intros H.
  destruct (pendingClearAction st) as [a|]; [|exact H].
  now apply (runClearAction_unique a) in H.
Qed.

Lemma pushMessage_uploads (m : Message) (st : State) :
  uploadedPDFs (pushMessage m st) = uploadedPDFs st.
Proof.
  unfold pushMessage. now destruct (str_eqb (currentMode st) mode_history).
Qed.

Lemma sendMessage_uploads (tMsg tReq : jsstr) (st : State) :
  uploadedPDFs (fst (sendMessage tMsg tReq st)) = uploadedPDFs st.
Proof.
  unfold sendMessage.
  destruct (isEmpty _ || isTyping st); [reflexivity|].
  destruct (str_eqb (currentMode st) mode_pdf && _); [reflexivity|].
  unfold pushMessage. cbn.
  destruct (str_eqb (currentMode st) mode_history) eqn:Eh; cbn;
    rewrite ?Eh; [reflexivity|].
  destruct (str_eqb (currentMode st) mode_pdf); reflexivity.
Qed.

Lemma sendMessage_resume_uploads (tAi : jsstr) (r : FetchResult) (st : State) :
  uploadedPDFs (sendMessage_resume tAi r st) = uploadedPDFs st.
Proof.
  destruct r as [reason|status [| |data]]; cbn; [reflexivity| | |].
  - now destruct (response_ok status).
  - now destruct (response_ok status).
  - destruct (response_ok status); [|reflexivity]. cbn.
    destruct (success data); [|reflexivity].
    destruct (answer data); [|reflexivity].
    now rewrite pushMessage_uploads.
Qed.

Lemma switchMode_uploads (mode : jsstr) (st : State) :
  uploadedPDFs (switchMode mode st) = uploadedPDFs st.
Proof.
  unfold switchMode. cbn.
  destruct (str_eqb mode mode_history);
    [|destruct (str_eqb mode mode_pdf)]; [| |reflexivity];
    match goal with
    | |- context [loadMessages ?m ?s] =>
      destruct (loadMessages_set_view m s) as [v ->]
    end; reflexivity.
Qed.

Lemma step_unique (s : Session) (e : Event) :
  keysUnique (app s) -> keysUnique (app (step s e)).
Proof.
  unfold keysUnique at 2.
  intros H. destruct e; cbn [step app started handled]; try exact H.
  - now rewrite sendMessage_uploads.
  - unfold sendSampleQuery. now rewrite sendMessage_uploads.
  - now rewrite switchMode_uploads.
  - now apply handleFileSelect_unique.
  - now apply handleDrop_unique.
  - now apply removePDFFile_unique.
  - now apply confirmAction_unique.
  - destruct (awaiting s); [|exact H]. cbn [app].
    now rewrite sendMessage_resume_uploads.
Qed.

Lemma run_unique (events : list Event) (s : Session) :
  keysUnique (app s) -> keysUnique (app (run s events)).
Proof.
  unfold run. revert s.
  induction events as [|e events IH]; intros s H; simpl; [exact H|].
  apply IH. now apply step_unique.
Qed.

Lemma handleFileSelect_uploads_ext (files : list (File * N)) (st1 st2 : State) :
  uploadedPDFs st1 = uploadedPDFs st2 ->
  uploadedPDFs (handleFileSelect files st1)
  = uploadedPDFs (handleFileSelect files st2).
Proof.
  unfold handleFileSelect. revert st1 st2.
  induction files as [|[f i] files IH]; intros st1 st2 E; cbn [fold_left];
    [exact E|].
  apply IH. unfold stageFile. cbn beta iota. rewrite E.
  destruct (str_eqb (fileType f) pdf_mime); [|exact E].
  destruct (maxPdfSize <? fileSize f); [exact E|].
  destruct (existsb (sameFile f) (uploadedPDFs st2)); [exact E|].
  reflexivity.
Qed.

(** C5.  Whatever events the page handles, no two staged files share
    (name, size).  A candidate whose key is already staged leaves the
    staged list as it is, and after a rejected candidate the rest of the
    batch is processed as if it had not been there. *)
Theorem staged_files_unique :
  (forall events, keysUnique (app (run initialSession events)))
  /\ (forall f freshId st,
        In (fileName f, fileSize f) (map stagedKey (uploadedPDFs st)) ->
        uploadedPDFs (stageFile (f, freshId) st) = uploadedPDFs st)
  /\ (forall c rest st,
        uploadedPDFs (stageFile c st) = uploadedPDFs st ->
        uploadedPDFs (handleFileSelect (c :: rest) st)
        = uploadedPDFs (handleFileSelect rest st)).
Proof.
  split; [|split].
  - intros events. apply run_unique. constructor.
  - intros f i st H. apply sameFile_key in H.
    destruct (stageFile_uploads (f, i) st) as [E|[E _]]; [exact E|].
    cbn [fst] in E. congruence.
  - intros c rest st E.
    change (handleFileSelect (c :: rest) st)
      with (handleFileSelect rest (stageFile c st)).
    now apply handleFileSelect_uploads_ext.
Qed.

End Uploads.

Lemma staged_files_unique_witness :
  keysUnique (app (run (U := Url.simple) initialSession sampleUploadEvents))
  /\ uploadedPDFs (stageFile (samplePdf, 7) stagedOnce)
     = uploadedPDFs stagedOnce
  /\ uploadedPDFs (handleFileSelect [(samplePdf, 7); (otherPdf, 8)] stagedOnce)
     = uploadedPDFs (handleFileSelect [(otherPdf, 8)] stagedOnce).
Proof.
  destruct (@staged_files_unique Url.simple) as (H1 & H2 & H3).
  split; [apply H1|].
  split; [apply H2; vm_compute; left; reflexivity|].
  apply H3. reflexivity.
Defined.

(** ** Request dispatch *)

Section Dispatch.

Context {U : UrlApi}.

Lemma guard_writes_app (a b : list Effect) :
  guard_writes (a ++ b) = guard_writes a ++ guard_writes b.
Proof.
  induction a as [|[] a IH]; simpl; congruence.
Qed.


Lemma quiet_refl (st : State) : quiet st st.
Proof. split; [reflexivity|]. exists []. simpl. now rewrite app_nil_r. Qed.

Lemma quiet_trans (a b c : State) : quiet a b -> quiet b c -> quiet a c.
Proof.
  intros [T1 [n1 E1]] [T2 [n2 E2]]. split; [congruence|].
  exists (n1 ++ n2). now rewrite E2, E1, map_app, app_assoc.
Qed.

Lemma quiet_toast (n : Notice) (st : State) : quiet st (emit (Toast n) st).
Proof. split; [reflexivity|]. now exists [n]. Qed.

Lemma quiet_same (st st' : State) :
  isTyping st' = isTyping st -> effects st' = effects st -> quiet st st'.
Proof.
  intros T E. split; [exact T|]. exists []. simpl. now rewrite app_nil_r.
Qed.

Lemma switchMode_quiet (mode : jsstr) (st : State) :
  quiet st (switchMode mode st).
Proof.
  unfold switchMode.
  destruct (str_eqb mode mode_history);
    [|destruct (str_eqb mode mode_pdf)];
    try match goal with
    | |- context [loadMessages ?m ?s] =>
      destruct (loadMessages_set_view m s) as [v ->]
    end; now apply quiet_same.
Qed.

Lemma stageFile_quiet (c : File * N) (st : State) : quiet st (stageFile c st).
Proof.
  destruct c as [f i]. unfold stageFile.
  destruct (str_eqb (fileType f) pdf_mime); [|apply quiet_toast].
  destruct (maxPdfSize <? fileSize f); [apply quiet_toast|].
  destruct (existsb (sameFile f) (uploadedPDFs st)); [apply quiet_toast|].
  split; [reflexivity|]. now exists [FileAdded (fileName f)].
Qed.

Lemma handleFileSelect_quiet (files : list (File * N)) (st : State) :
  quiet st (handleFileSelect files st).
Proof.
  unfold handleFileSelect. revert st.
  induction files as [|c files IH]; intros st; cbn [fold_left].
  - apply quiet_refl.
  - eapply quiet_trans; [apply stageFile_quiet|apply IH].
Qed.

Lemma handleDrop_quiet (files : list (File * N)) (st : State) :
  quiet st (handleDrop files st).
Proof.
  unfold handleDrop. destruct (filter _ files).
  - apply quiet_toast.
  - apply handleFileSelect_quiet.
Qed.

Lemma removePDFFile_quiet (fileId : N) (st : State) :
  quiet st (removePDFFile fileId st).
Proof.
  unfold removePDFFile.
  destruct (spliceById fileId (uploadedPDFs st)) as [[p rest]|].
  - split; [reflexivity|]. now exists [FileRemoved (name p)].
  - apply quiet_refl.
Qed.

Lemma confirmAction_quiet (st : State) : quiet st (confirmAction st).
Proof.
  unfold confirmAction.
  destruct (pendingClearAction st) as [[|]|]; [| |apply quiet_refl].
  - cbn. destruct (str_eqb (currentMode st) mode_history);
      (split; [reflexivity|]; now exists [HistoryCleared]).
  - cbn. destruct (str_eqb (currentMode st) mode_pdf);
      (split; [reflexivity|]; now exists [PdfCleared]).
Qed.

(** While the guard is held, [sendMessage] returns at once. *)
Lemma sendMessage_busy (tMsg tReq : jsstr) (st : State) :
  isTyping st = true -> sendMessage tMsg tReq st = (st, None).
Proof.
  intros T. unfold sendMessage. now rewrite T, orb_true_r.
Qed.

(** A call that issues a request found the guard free, took it, and
    only then called [fetch]. *)
Lemma sendMessage_issued (tMsg tReq : jsstr) (st st1 : State) (req : Request) :
  sendMessage tMsg tReq st = (st1, Some req) ->
  isTyping st = false
  /\ isTyping st1 = true
  /\ effects st1 = effects st ++ [SetTyping true; Fetch req].
Proof.
  unfold sendMessage.
  destruct (isEmpty _ || isTyping st) eqn:E; [discriminate|].
  apply orb_false_iff in E as [_ E].
  destruct (str_eqb (currentMode st) mode_pdf && _); [discriminate|].
  unfold pushMessage. cbn.
  destruct (str_eqb (currentMode st) mode_history) eqn:Eh; cbn; rewrite ?Eh.
  - intros [= <- <-]. cbn. now rewrite <- app_assoc.
  - destruct (str_eqb (currentMode st) mode_pdf); [|discriminate].
    intros [= <- <-]. cbn. now rewrite <- app_assoc.
Qed.

(** A call that issues no request leaves the guard as it found it. *)
Lemma sendMessage_not_issued (tMsg tReq : jsstr) (st : State) :
  snd (sendMessage tMsg tReq st) = None ->
  isTyping (fst (sendMessage tMsg tReq st)) = isTyping st.
Proof.
  unfold sendMessage.
  destruct (isEmpty _ || isTyping st) eqn:E; [reflexivity|].
  apply orb_false_iff in E as [_ E].
  destruct (str_eqb (currentMode st) mode_pdf && _); [reflexivity|].
  unfold pushMessage. cbn.
  destruct (str_eqb (currentMode st) mode_history) eqn:Eh; cbn; rewrite ?Eh;
    [discriminate|].
  destruct (str_eqb (currentMode st) mode_pdf); [discriminate|].
  cbn. now rewrite E.
Qed.

Lemma pushMessage_effects (m : Message) (st : State) :
  effects (pushMessage m st) = effects st
  /\ isTyping (pushMessage m st) = isTyping st.
Proof.
  unfold pushMessage. now destruct (str_eqb (currentMode st) mode_history).
Qed.

Ltac guard_trace :=
  rewrite ?guard_writes_app; cbn [guard_writes app];
  rewrite ?app_nil_r, <- ?app_assoc; cbn [app]; split; reflexivity.

(** Every way the request can settle ends with the guard free; the reset
    statement runs once, or twice when rendering the answer throws. *)
Lemma sendMessage_resume_guard (tAi : jsstr) (r : FetchResult) (st : State) :
  isTyping (sendMessage_resume tAi r st) = false
  /\ guard_writes (effects (sendMessage_resume tAi r st))
     = guard_writes (effects st) ++ repeat false (hideCalls r).
Proof.
  unfold hideCalls, throwsAfterReset.
  destruct r as [reason|status [| |data]]; cbn.
  - guard_trace.
  - destruct (response_ok status); cbn; guard_trace.
  - destruct (response_ok status); cbn; guard_trace.
  - destruct (response_ok status); cbn; [|guard_trace].
    destruct (success data); cbn; [|guard_trace].
    destruct (answer data) as [text|]; cbn; [|guard_trace].
    destruct (pushMessage_effects
                {| content := text; sender := Ai;
                   sourceUrls := source_urls data; timestamp := tAi |}
                (addMessage text Ai (source_urls data) (hideTypingIndicator st)))
      as [-> ->].
    cbn. guard_trace.
Qed.

(** Handlers other than [sendMessage] and its continuation never touch
    the guard or the pending request. *)
Lemma step_other_quiet (s : Session) (e : Event) :
  match e with
  | Send _ _ | SampleQuery _ _ _ | Settle _ _ => True
  | _ => quiet (app s) (app (step s e)) /\ awaiting (step s e) = awaiting s
  end.
Proof.
  destruct e; try exact I; cbn [step app awaiting handled];
    (split; [|reflexivity]).
  - now apply quiet_same.
  - now apply quiet_same.
  - apply switchMode_quiet.
  - apply handleFileSelect_quiet.
  - apply handleDrop_quiet.
  - apply removePDFFile_quiet.
  - now apply quiet_same.
  - now apply quiet_same.
  - apply confirmAction_quiet.
  - now apply quiet_same.
Qed.





(** C3.  When the request fails (rejected fetch, status outside 200-299,
    or [success:false]), the indicator is removed and exactly one node is
    drawn at the end of the chat in place of an answer: an AI message,
    without references, whose text is the fixed sentence of that kind of
    failure (the connection sentence for a transport failure, the
    processing sentence for [success:false]).  It is drawn only: neither
    stored thread changes.  Nothing of the error reaches the page: no
    toast is shown. *)
Theorem failure_fallback (tAi : jsstr) (r : FetchResult) (st : State) :
  failed r ->
  let st' := sendMessage_resume tAi r st in
  chat (view st')
  = removeTyping (chat (view st))
    ++ [MessageNode (currentMode st) Ai (fallbackText r) []]
  /\ (fallbackText r = fallbackConnection
      \/ fallbackText r = fallbackProcessing)
  /\ (forall n, In (Toast n) (effects st') -> In (Toast n) (effects st))
  /\ historyMessages st' = historyMessages st
  /\ pdfMessages st' = pdfMessages st
  /\ isTyping st' = false.
Proof.
  assert (Fc : formatMessage fallbackConnection = fallbackConnection)
    by (vm_compute; reflexivity).
  assert (Fp : formatMessage fallbackProcessing = fallbackProcessing)
    by (vm_compute; reflexivity).
  assert (K : forall e (s : State),
    let s' := sendMessage_catch e s in
    chat (view s')
    = removeTyping (chat (view s))
      ++ [MessageNode (currentMode s) Ai fallbackConnection []]
    /\ (fallbackConnection = fallbackConnection
        \/ fallbackConnection = fallbackProcessing)
    /\ (forall n, In (Toast n) (effects s') -> In (Toast n) (effects s))
    /\ historyMessages s' = historyMessages s
    /\ pdfMessages s' = pdfMessages s
    /\ isTyping s' = false).
  { intros e s. cbn. unfold renderMessage. rewrite Fc.
    split; [reflexivity|]. split; [left; reflexivity|].
    split; [|repeat split].
    intros n Hn. rewrite <- app_assoc in Hn. apply in_app_or in Hn as [Hn|Hn];
      [exact Hn|].
    cbn in Hn. destruct Hn as [Hn|[Hn|[]]]; discriminate. }
  intros F. destruct r as [reason|status body]; cbn [sendMessage_resume].
  - apply K.
  - destruct (response_ok status) eqn:Ok; cbn [negb].
    + destruct F as [F|(data & -> & F)]; [congruence|].
      cbn [fallbackText]. rewrite Ok, F. cbn. unfold renderMessage.
      rewrite Fp.
      split; [reflexivity|]. split; [right; reflexivity|].
      split; [|repeat split].
      intros n Hn. apply in_app_or in Hn as [Hn|Hn]; [exact Hn|].
      cbn in Hn. destruct Hn as [Hn|[]]; discriminate.
    + assert (E : fallbackText (Responded status body) = fallbackConnection).
      { destruct body; cbn [fallbackText]; rewrite ?Ok; reflexivity. }
      rewrite E. apply K.
Qed.

(** On structural success the answer is stored in the thread selected by
    [currentMode] as it is when the response arrives. *)
Lemma sendMessage_resume_success (tAi text : jsstr) (status : N)
    (data : ResponseData) (st : State) :
  response_ok status = true -> success data = true ->
  answer data = Some text ->
  let st' := sendMessage_resume tAi (Responded status (Parsed data)) st in
  let aiMessageObj := {| content := text; sender := Ai;
                         sourceUrls := source_urls data; timestamp := tAi |} in
  if str_eqb (currentMode st) mode_history
  then historyMessages st' = historyMessages st ++ [aiMessageObj]
       /\ pdfMessages st' = pdfMessages st
  else historyMessages st' = historyMessages st
       /\ pdfMessages st' = pdfMessages st ++ [aiMessageObj].
Proof.
  intros Ok S A. cbn. rewrite Ok, S, A. cbn. unfold pushMessage. cbn.
  destruct (str_eqb (currentMode st) mode_history); now split.
Qed.

(** The guard is held exactly while a request is pending, so a second
    request is never issued before the first has settled. *)
Lemma step_single_flight (s : Session) (e : Event) :
  (awaiting s = None <-> isTyping (app s) = false) ->
  (awaiting (step s e) = None <-> isTyping (app (step s e)) = false).
Proof.
  intros Inv. pose proof (step_other_quiet s e) as H.
  assert (Sent : forall tMsg tReq st,
    (awaiting s = None <-> isTyping st = false) ->
    let s' := started s (sendMessage tMsg tReq st) in
    awaiting s' = None <-> isTyping (app s') = false).
  { intros tMsg tReq st Inv'. unfold started. cbn [app awaiting].
    destruct (sendMessage tMsg tReq st) as [st1 [req|]] eqn:E; cbn [fst snd].
    - apply sendMessage_issued in E as (_ & T1 & _). rewrite T1.
      split; discriminate.
    - pose proof (sendMessage_not_issued tMsg tReq st) as N.
      rewrite E in N. cbn [fst snd] in N. now rewrite N. }
  assert (Other : quiet (app s) (app (step s e))
                  /\ awaiting (step s e) = awaiting s ->
                  awaiting (step s e) = None
                  <-> isTyping (app (step s e)) = false).
  { intros [[T _] A]. rewrite A, T. exact Inv. }
  destruct e; try exact (Other H).
  - apply Sent. exact Inv.
  - apply Sent. exact Inv.
  - cbn [step]. destruct (awaiting s) eqn:A.
    + cbn [app awaiting].
      destruct (sendMessage_resume_guard tAi r (app s)) as [T _].
      rewrite T. split; reflexivity.
    + rewrite A. exact Inv.
Qed.

(** X1.  Whatever the page has handled since it was loaded, a request is
    pending exactly when the guard [isTyping] is set: no second request
    is issued before the first has settled, and the guard is never left
    set without a request to release it. *)
Lemma single_flight (events : list Event) :
  awaiting (run initialSession events) = None
  <-> isTyping (app (run initialSession events)) = false.
Proof.
  unfold run.
  assert (G : forall s,
    (awaiting s = None <-> isTyping (app s) = false) ->
    awaiting (fold_left step events s) = None
    <-> isTyping (app (fold_left step events s)) = false).
  { induction events as [|e events IH]; intros s Inv; cbn [fold_left].
    - exact Inv.
    - apply IH. now apply step_single_flight. }
  apply G. now split.
Qed.

End Dispatch.



Lemma failure_fallback_witness :
  let st := app (run (U := Url.simple) initialSession askedInHistory) in
  let r := Responded 200 (Parsed answerRefused) in
  let st' := sendMessage_resume (U := Url.simple) sampleTime r st in
  chat (view st')
  = removeTyping (chat (view st))
    ++ [MessageNode (currentMode st) Ai (fallbackText r) []]
  /\ (fallbackText r = fallbackConnection
      \/ fallbackText r = fallbackProcessing)
  /\ (forall n, In (Toast n) (effects st') -> In (Toast n) (effects st))
  /\ historyMessages st' = historyMessages st
  /\ pdfMessages st' = pdfMessages st
  /\ isTyping st' = false.
Proof.
  apply (@failure_fallback Url.simple sampleTime
           (Responded 200 (Parsed answerRefused))).
  right. exists answerRefused. split; reflexivity.
Defined.

(** C3, as the specification words it, fails: after a transport failure,
    and after a [success:false] response, the thread the question was
    asked in holds the question alone; no fallback message was appended
    to either thread. *)
Lemma fallback_not_appended_to_thread :
  let asked := run (U := Url.simple) initialSession askedInHistory in
  let lost := app (step (U := Url.simple) asked
                     (Settle sampleTime (Rejected (js "Failed to fetch")))) in
  let refused := app (step (U := Url.simple) asked
                        (Settle sampleTime
                           (Responded 200 (Parsed answerRefused)))) in
  historyMessages lost = [userQ] /\ pdfMessages lost = []
  /\ historyMessages refused = [userQ] /\ pdfMessages refused = []
  /\ List.length (historyMessages lost ++ pdfMessages lost)
     <> S (List.length (historyMessages (app asked)
                        ++ pdfMessages (app asked))).
Proof. repeat split; vm_compute; (reflexivity || discriminate). Qed.

(** C1.  A question is sent in history mode, the user switches to pdf
    mode while it is pending, and the answer arrives: the question is in
    the history thread and its answer is stored in the pdf thread. *)
Theorem answer_stored_by_mode_at_arrival :
  let sent := run (U := Url.simple) initialSession askedInHistory in
  let s := run (U := Url.simple) sent
             [ SwitchMode mode_pdf;
               Settle sampleTime (Responded 200 (Parsed answerA)) ] in
  currentMode (app sent) = mode_history
  /\ awaiting sent = Some (RagChat (js "Q") sampleTime)
  /\ historyMessages (app s) = [userQ]
  /\ pdfMessages (app s) = [aiA].
Proof. repeat split; vm_compute; reflexivity. Qed.

(** * Further properties *)

(** ** Rendering of a thread *)

Section Rerender.

Context {U : UrlApi}.

Lemma fold_addMessage (msgs : list Message) (c : list Node) (st : State) :
  fold_left
    (fun s msg => addMessage (content msg) (sender msg) (sourceUrls msg) s)
    msgs (set_view (set_chat c (view st)) st)
  = set_view
      (set_chat (c ++ map (renderStored (currentMode st)) msgs) (view st)) st.
Proof.
  revert c. induction msgs as [|m msgs IH]; intros c; cbn [fold_left map].
  - now rewrite app_nil_r.
  - change (addMessage (content m) (sender m) (sourceUrls m)
              (set_view (set_chat c (view st)) st))
      with (set_view
              (set_chat (c ++ [renderStored (currentMode st) m]) (view st)) st).
    rewrite IH. now rewrite <- app_assoc.
Qed.

(** [loadMessages] replaces the chat by the rendering of the stored
    thread, every node tagged with the current mode. *)
Lemma loadMessages_chat (mode : jsstr) (st : State) :
  loadMessages mode st
  = set_view
      (set_chat
         (map (renderStored (currentMode st))
              (if str_eqb mode mode_history
               then historyMessages st else pdfMessages st))
         (view st)) st.
Proof.
  unfold loadMessages.
  change (on_view (set_chat []) st) with (set_view (set_chat [] (view st)) st).
  now rewrite fold_addMessage.
Qed.





Lemma removeTyping_none (l : list Node) :
  typingNodes l = 0%nat -> removeTyping l = l.
Proof.
  induction l as [|[dm f b r|] l IH]; cbn [removeTyping]; intros H.
  - reflexivity.
  - f_equal. apply IH. exact H.
  - discriminate H.
Qed.


(** X2.  Switching to history (to pdf) stores that mode and shows
    exactly the stored history (pdf) thread, one node per message in
    order, each tagged with the mode; whatever was displayed before,
    typing indicator included, is gone.  Both threads are untouched. *)
Theorem switchMode_renders_thread (st : State) :
  (currentMode (switchMode mode_history st) = mode_history
   /\ chat (view (switchMode mode_history st))
      = map (renderStored mode_history) (historyMessages st))
  /\ (currentMode (switchMode mode_pdf st) = mode_pdf
      /\ chat (view (switchMode mode_pdf st))
         = map (renderStored mode_pdf) (pdfMessages st))
  /\ (forall mode,
        historyMessages (switchMode mode st) = historyMessages st
        /\ pdfMessages (switchMode mode st) = pdfMessages st).
Proof.
  assert (Ep : str_eqb mode_pdf mode_history = false) by reflexivity.
  split; [|split].
  - unfold switchMode. rewrite str_eqb_refl, loadMessages_chat, str_eqb_refl.
    split; reflexivity.
  - unfold switchMode. rewrite Ep, str_eqb_refl, loadMessages_chat, Ep.
    split; reflexivity.
  - intros mode. unfold switchMode.
    destruct (str_eqb mode mode_history);
      [|destruct (str_eqb mode mode_pdf)];
      rewrite ?loadMessages_chat; split; reflexivity.
Qed.

(** X3.  [switchMode] is idempotent, for every argument: a second call
    with the same mode leaves the whole state as the first call left
    it. *)
Theorem switchMode_idempotent (mode : jsstr) (st : State) :
  switchMode mode (switchMode mode st) = switchMode mode st.
Proof.
  assert (E : str_eqb mode_pdf mode_history = false) by reflexivity.
  unfold switchMode.
  destruct (str_eqb mode mode_history) eqn:Eh;
    [|destruct (str_eqb mode mode_pdf) eqn:Ep];
    rewrite ?loadMessages_chat;
    destruct st as [ty cm up mo pc hm pm iv [c hw pw am pr ct] ef];
    cbn; rewrite ?Eh, ?E, ?str_eqb_refl; reflexivity.
Qed.

(** X4.  A fallback answer is displayed but not stored: after a failed
    request, the next rendering of either thread shows the stored
    messages only, as if the fallback had never been shown. *)
Theorem fallback_lost_on_rerender (tAi : jsstr) (r : FetchResult) (st : State) :
  failed r ->
  chat (view (switchMode mode_history (sendMessage_resume tAi r st)))
  = map (renderStored mode_history) (historyMessages st)
  /\ chat (view (switchMode mode_pdf (sendMessage_resume tAi r st)))
     = map (renderStored mode_pdf) (pdfMessages st).
Proof.
  assert (Ep : str_eqb mode_pdf mode_history = false) by reflexivity.
  intros F.
  assert (K : historyMessages (sendMessage_resume tAi r st) = historyMessages st
              /\ pdfMessages (sendMessage_resume tAi r st) = pdfMessages st).
  { destruct r as [reason|status body]; cbn [sendMessage_resume].
    - split; reflexivity.
    - destruct (response_ok status) eqn:Ok; cbn [negb]; [|split; reflexivity].
      destruct F as [F|(data & -> & F)]; [congruence|].
      rewrite F. split; reflexivity. }
  destruct K as [Kh Kp].
  unfold switchMode.
  rewrite str_eqb_refl, Ep, !loadMessages_chat, str_eqb_refl, Ep.
  cbn. rewrite Kh, Kp. split; reflexivity.
Qed.

End Rerender.

Lemma fallback_lost_on_rerender_witness :
  let st := app (run (U := Url.simple) initialSession askedInHistory) in
  let st' := sendMessage_resume (U := Url.simple) sampleTime
               (Responded 503 Unparsable) st in
  chat (view (switchMode (U := Url.simple) mode_history st'))
  = map (renderStored (U := Url.simple) mode_history) (historyMessages st)
  /\ chat (view (switchMode (U := Url.simple) mode_pdf st'))
     = map (renderStored (U := Url.simple) mode_pdf) (pdfMessages st).
Proof.
  apply (@fallback_lost_on_rerender Url.simple sampleTime
           (Responded 503 Unparsable)).
  left. reflexivity.
Defined.

(** ** What [sendMessage] sends and stores *)

Lemma trimStart_idempotent (s : jsstr) : trimStart (trimStart s) = trimStart s.
Proof.
  induction s as [|c s IH]; cbn [trimStart]; [reflexivity|].
  destruct (trimmable c) eqn:E; [exact IH|].
  cbn [trimStart]. now rewrite E.
Qed.

Lemma trimStart_clean (c : unit16) (s : jsstr) :
  trimmable c = false -> trimStart (c :: s) = c :: s.
Proof. intros E. cbn [trimStart]. now rewrite E. Qed.

Lemma trimStart_snoc (s : jsstr) (c : unit16) :
  trimmable c = false -> trimStart (s ++ [c]) = trimStart s ++ [c].
Proof.
  intros E. induction s as [|x s IH].
  - change (trimStart [c] = [c]). now apply trimStart_clean.
  - change (trimStart (x :: (s ++ [c])) = trimStart (x :: s) ++ [c]).
    cbn [trimStart]. destruct (trimmable x); [exact IH|reflexivity].
Qed.

(** [trim] is idempotent: a trimmed string has no white space left at
    either end. *)
Lemma trim_idempotent (s : jsstr) : trim (trim s) = trim s.
Proof.
  unfold trim, trimEnd.
  destruct (trimStart s) as [|c r] eqn:E; [reflexivity|].
  pose proof (trimStart_head _ _ _ E) as Hc.
  cbn [rev]. rewrite (trimStart_snoc _ _ Hc), rev_app_distr.
  cbn [rev Datatypes.app].
  rewrite (trimStart_clean _ _ Hc).
  cbn [rev]. rewrite rev_involutive, (trimStart_snoc _ _ Hc).
  rewrite trimStart_idempotent, rev_app_distr. reflexivity.
Qed.

Lemma isEmpty_trim (s : jsstr) :
  isEmpty (trim s) = forallb trimmable s.
Proof.
  destruct (forallb trimmable s) eqn:E.
  - apply trim_blank in E. now rewrite E.
  - destruct (trim s) eqn:T; [|reflexivity].
    apply trim_blank in T. congruence.
Qed.

Section Sending.

Context {U : UrlApi}.

Lemma pushMessage_mode (m : Message) (st : State) :
  currentMode (pushMessage m st) = currentMode st.
Proof.
  unfold pushMessage. now destruct (str_eqb (currentMode st) mode_history).
Qed.

Lemma dispatched_mode (tMsg : jsstr) (st : State) :
  currentMode (dispatched tMsg st) = currentMode st.
Proof. unfold dispatched. cbn. now rewrite pushMessage_mode. Qed.

Lemma dispatched_uploads (tMsg : jsstr) (st : State) :
  uploadedPDFs (dispatched tMsg st) = uploadedPDFs st.
Proof. unfold dispatched. cbn. now rewrite pushMessage_uploads. Qed.

(** The three ways an accepted call goes on, by [currentMode]. *)
Lemma sendMessage_accepted (tMsg tReq : jsstr) (st : State) :
  forallb trimmable (inputValue st) = false ->
  isTyping st = false ->
  str_eqb (currentMode st) mode_pdf
  && (N.of_nat (List.length (uploadedPDFs st)) =? 0) = false ->
  sendMessage tMsg tReq st
  = if str_eqb (currentMode st) mode_history then
      (emit (Fetch (RagChat (trim (inputValue st)) tReq)) (dispatched tMsg st),
       Some (RagChat (trim (inputValue st)) tReq))
    else if str_eqb (currentMode st) mode_pdf then
      (emit (Fetch (PdfRagChat (trim (inputValue st)) tReq
                      (map file (uploadedPDFs st))))
         (dispatched tMsg st),
       Some (PdfRagChat (trim (inputValue st)) tReq
               (map file (uploadedPDFs st))))
    else (sendMessage_catch TypeError (dispatched tMsg st), None).
Proof.
  intros B T P. unfold sendMessage.
  rewrite isEmpty_trim, B, T, P. cbn [orb].
  fold (userMessage tMsg st). fold (dispatched tMsg st).
  now rewrite dispatched_mode, dispatched_uploads.
Qed.

(** X5.  [sendMessage] issues a request exactly when the input has a
    character that is not white space, no request is pending, and the
    mode is ['history'], or ['pdf'] with at least one staged file.  In
    particular nothing is sent under any other value of [currentMode]. *)
Theorem sendMessage_issues_iff (tMsg tReq : jsstr) (st : State) :
  snd (sendMessage tMsg tReq st) <> None
  <-> forallb trimmable (inputValue st) = false
      /\ isTyping st = false
      /\ (currentMode st = mode_history
          \/ (currentMode st = mode_pdf /\ uploadedPDFs st <> [])).
Proof.
  destruct (forallb trimmable (inputValue st)) eqn:B.
  { split; [|intros [? _]; discriminate].
    intros H. exfalso. apply H. unfold sendMessage.
    now rewrite isEmpty_trim, B. }
  destruct (isTyping st) eqn:T.
  { split; [|intros (_ & ? & _); discriminate].
    intros H. exfalso. apply H. now rewrite sendMessage_busy. }
  destruct (str_eqb (currentMode st) mode_pdf
            && (N.of_nat (List.length (uploadedPDFs st)) =? 0)) eqn:P.
  { apply andb_true_iff in P as [Pm Pu]. apply str_eqb_eq in Pm.
    assert (Eu : uploadedPDFs st = [])
      by (destruct (uploadedPDFs st); [reflexivity|discriminate Pu]).
    split.
    - intros H. exfalso. apply H. unfold sendMessage.
      rewrite isEmpty_trim, B, T, Pm, Eu, str_eqb_refl. reflexivity.
    - intros (_ & _ & [Hh|[_ Hu]]); [|congruence].
      rewrite Pm in Hh. discriminate Hh. }
  rewrite (sendMessage_accepted _ _ _ B T P).
  destruct (str_eqb (currentMode st) mode_history) eqn:Eh.
  { apply str_eqb_eq in Eh. cbn [snd]. split; [auto|discriminate]. }
  destruct (str_eqb (currentMode st) mode_pdf) eqn:Ep.
  { apply str_eqb_eq in Ep. cbn [snd andb] in *. split; [|discriminate].
    intros _. repeat split. right. split; [exact Ep|].
    intros Eu. rewrite Eu in P. discriminate P. }
  cbn [snd]. apply str_eqb_neq in Eh, Ep.
  split; [congruence|]. intros (_ & _ & [H|[H _]]); congruence.
Qed.


(** X7.  In pdf mode with files staged, the request goes to the pdf
    endpoint with the trimmed question and the staged files, all of them
    and in staging order; the question is stored in the pdf thread and
    the history thread is untouched. *)
Theorem pdf_dispatch (tMsg tReq : jsstr) (st : State) :
  forallb trimmable (inputValue st) = false ->
  isTyping st = false ->
  currentMode st = mode_pdf ->
  uploadedPDFs st <> [] ->
  let st' := fst (sendMessage tMsg tReq st) in
  snd (sendMessage tMsg tReq st)
  = Some (PdfRagChat (trim (inputValue st)) tReq (map file (uploadedPDFs st)))
  /\ pdfMessages st' = pdfMessages st ++ [userMessage tMsg st]
  /\ historyMessages st' = historyMessages st
  /\ uploadedPDFs st' = uploadedPDFs st
  /\ isTyping st' = true.
Proof.
  assert (E : str_eqb mode_pdf mode_history = false) by reflexivity.
  intros B T M N.
  assert (P : str_eqb (currentMode st) mode_pdf
              && (N.of_nat (List.length (uploadedPDFs st)) =? 0) = false).
  { destruct (uploadedPDFs st); [congruence|]. apply andb_false_r. }
  rewrite (sendMessage_accepted _ _ _ B T P), M, E, str_eqb_refl.
  cbn [fst snd]. split; [reflexivity|].
  unfold dispatched, pushMessage. cbn. rewrite M, E. cbn. repeat split.
Qed.

(** X8.  When [currentMode] holds anything but the two modes, an
    accepted question is stored in the pdf thread, no request is issued,
    the connection fallback is shown at once and the guard is free
    again. *)
Theorem unknown_mode_send (tMsg tReq : jsstr) (st : State) :
  forallb trimmable (inputValue st) = false ->
  isTyping st = false ->
  currentMode st <> mode_history ->
  currentMode st <> mode_pdf ->
  let st' := fst (sendMessage tMsg tReq st) in
  snd (sendMessage tMsg tReq st) = None
  /\ pdfMessages st' = pdfMessages st ++ [userMessage tMsg st]
  /\ historyMessages st' = historyMessages st
  /\ effects st'
     = effects st ++ [SetTyping true; ConsoleError TypeError; SetTyping false]
  /\ chat (view st')
     = removeTyping
         (chat (view st)
          ++ [renderMessage (currentMode st) (trim (inputValue st)) User None;
              TypingNode])
       ++ [renderMessage (currentMode st) fallbackConnection Ai None]
  /\ isTyping st' = false.
Proof.
  intros B T Mh Mp. apply str_eqb_neq in Mh, Mp.
  assert (P : str_eqb (currentMode st) mode_pdf
              && (N.of_nat (List.length (uploadedPDFs st)) =? 0) = false)
    by now rewrite Mp.
  rewrite (sendMessage_accepted _ _ _ B T P), Mh, Mp.
  cbn [fst snd]. split; [reflexivity|].
  unfold dispatched, pushMessage. cbn. rewrite Mh. cbn.
  rewrite <- !app_assoc. cbn [Datatypes.app]. repeat split.
Qed.

End Sending.

(** ** Invariants of the session *)

Section Invariants.

Context {U : UrlApi}.

Lemma sameButUploads_refl (st : State) : sameButUploads st st.
Proof. repeat split. Qed.

Lemma sameButUploads_trans (a b c : State) :
  sameButUploads a b -> sameButUploads b c -> sameButUploads a c.
Proof.
  intros (H1 & H2 & H3 & H4 & H5) (K1 & K2 & K3 & K4 & K5).
  repeat split; congruence.
Qed.

Lemma stageFile_frame (c : File * N) (st : State) :
  sameButUploads st (stageFile c st).
Proof.
  destruct c as [f i]. unfold stageFile.
  destruct (str_eqb (fileType f) pdf_mime); [|repeat split].
  destruct (maxPdfSize <? fileSize f); [repeat split|].
  destruct (existsb (sameFile f) (uploadedPDFs st)); repeat split.
Qed.

Lemma handleFileSelect_frame (files : list (File * N)) (st : State) :
  sameButUploads st (handleFileSelect files st).
Proof.
  unfold handleFileSelect. revert st.
  induction files as [|c files IH]; intros st; cbn [fold_left].
  - apply sameButUploads_refl.
  - eapply sameButUploads_trans; [apply stageFile_frame|apply IH].
Qed.

Lemma handleDrop_frame (files : list (File * N)) (st : State) :
  sameButUploads st (handleDrop files st).
Proof.
  unfold handleDrop. destruct (filter _ files).
  - repeat split.
  - apply handleFileSelect_frame.
Qed.

Lemma removePDFFile_frame (fileId : N) (st : State) :
  sameButUploads st (removePDFFile fileId st).
Proof.
  unfold removePDFFile.
  destruct (spliceById fileId (uploadedPDFs st)) as [[p rest]|]; repeat split.
Qed.

Lemma pushMessage_view (m : Message) (st : State) :
  view (pushMessage m st) = view st /\ isTyping (pushMessage m st) = isTyping st.
Proof.
  unfold pushMessage. now destruct (str_eqb (currentMode st) mode_history).
Qed.

Lemma pushMessage_threads (m : Message) (st : State) :
  (historyMessages (pushMessage m st) = historyMessages st ++ [m]
   /\ pdfMessages (pushMessage m st) = pdfMessages st)
  \/ (historyMessages (pushMessage m st) = historyMessages st
      /\ pdfMessages (pushMessage m st) = pdfMessages st ++ [m]).
Proof.
  unfold pushMessage. destruct (str_eqb (currentMode st) mode_history);
    [left|right]; split; reflexivity.
Qed.

Lemma dispatched_state (tMsg : jsstr) (st : State) :
  chat (view (dispatched tMsg st))
  = (chat (view st)
     ++ [renderMessage (currentMode st) (trim (inputValue st)) User None])
    ++ [TypingNode]
  /\ isTyping (dispatched tMsg st) = true
  /\ effects (dispatched tMsg st) = effects st ++ [SetTyping true].
Proof.
  unfold dispatched. cbn.
  destruct (pushMessage_view (userMessage tMsg st)
              (addMessage (trim (inputValue st)) User None st)) as [-> _].
  destruct (pushMessage_effects (userMessage tMsg st)
              (addMessage (trim (inputValue st)) User None st)) as [-> _].
  repeat split.
Qed.

Lemma dispatched_threads (tMsg : jsstr) (st : State) :
  (historyMessages (dispatched tMsg st)
   = historyMessages st ++ [userMessage tMsg st]
   /\ pdfMessages (dispatched tMsg st) = pdfMessages st)
  \/ (historyMessages (dispatched tMsg st) = historyMessages st
      /\ pdfMessages (dispatched tMsg st)
         = pdfMessages st ++ [userMessage tMsg st]).
Proof.
  unfold dispatched. cbn.
  apply (pushMessage_threads (userMessage tMsg st)
           (addMessage (trim (inputValue st)) User None st)).
Qed.

(** The four outcomes of a call to [sendMessage]. *)
Lemma sendMessage_cases (tMsg tReq : jsstr) (st : State) :
  sendMessage tMsg tReq st = (st, None)
  \/ sendMessage tMsg tReq st = (emit (Toast NeedPdfFirst) st, None)
  \/ (isTyping st = false
      /\ exists req,
           sendMessage tMsg tReq st
           = (emit (Fetch req) (dispatched tMsg st), Some req)
           /\ validRequest (Fetch req) = true)
  \/ (isTyping st = false
      /\ sendMessage tMsg tReq st
         = (sendMessage_catch TypeError (dispatched tMsg st), None)).
Proof.
  destruct (forallb trimmable (inputValue st)) eqn:B.
  { left. unfold sendMessage. now rewrite isEmpty_trim, B. }
  destruct (isTyping st) eqn:T.
  { left. now apply sendMessage_busy. }
  destruct (str_eqb (currentMode st) mode_pdf
            && (N.of_nat (List.length (uploadedPDFs st)) =? 0)) eqn:P.
  { right; left. unfold sendMessage. now rewrite isEmpty_trim, B, T, P. }
  right; right. rewrite (sendMessage_accepted _ _ _ B T P).
  assert (V : negb (isEmpty (trim (inputValue st)))
              && str_eqb (trim (trim (inputValue st))) (trim (inputValue st))
              = true).
  { now rewrite isEmpty_trim, B, trim_idempotent, str_eqb_refl. }
  destruct (str_eqb (currentMode st) mode_history).
  { left. split; [reflexivity|]. eexists. split; [reflexivity|exact V]. }
  destruct (str_eqb (currentMode st) mode_pdf).
  - left. split; [reflexivity|]. eexists. split; [reflexivity|].
    cbn [validRequest]. rewrite V, length_map. cbn [andb] in *. now rewrite P.
  - right. split; reflexivity.
Qed.













(** *** Threads only grow or are emptied *)

Lemma appendsOne_same (h p : list Message) : appendsOne h p h p.
Proof.
  exists []. split; [cbn; lia|]. left. now rewrite app_nil_r.
Qed.

Lemma appendsOne_pushed (m : Message) (st st' : State) :
  (historyMessages st' = historyMessages st ++ [m]
   /\ pdfMessages st' = pdfMessages st)
  \/ (historyMessages st' = historyMessages st
      /\ pdfMessages st' = pdfMessages st ++ [m]) ->
  appendsOne (historyMessages st) (pdfMessages st)
    (historyMessages st') (pdfMessages st').
Proof. intros H. exists [m]. split; [cbn; lia|exact H]. Qed.

Lemma sendMessage_catch_threads (e : JsError) (st : State) :
  historyMessages (sendMessage_catch e st) = historyMessages st
  /\ pdfMessages (sendMessage_catch e st) = pdfMessages st.
Proof. split; reflexivity. Qed.

Lemma sendMessage_threads (tMsg tReq : jsstr) (st : State) :
  appendsOne (historyMessages st) (pdfMessages st)
    (historyMessages (fst (sendMessage tMsg tReq st)))
    (pdfMessages (fst (sendMessage tMsg tReq st))).
Proof.
  destruct (sendMessage_cases tMsg tReq st)
    as [->|[->|[(T & req & -> & _)|(T & ->)]]]; cbn [fst];
    try apply appendsOne_same.
  - apply (appendsOne_pushed (userMessage tMsg st)).
    apply (dispatched_threads tMsg st).
  - apply (appendsOne_pushed (userMessage tMsg st)).
    destruct (sendMessage_catch_threads TypeError (dispatched tMsg st))
      as [-> ->].
    apply (dispatched_threads tMsg st).
Qed.

Lemma sendMessage_resume_threads (tAi : jsstr) (r : FetchResult) (st : State) :
  appendsOne (historyMessages st) (pdfMessages st)
    (historyMessages (sendMessage_resume tAi r st))
    (pdfMessages (sendMessage_resume tAi r st)).
Proof.
  destruct r as [reason|status [| |data]]; cbn [sendMessage_resume];
    try apply appendsOne_same.
  - destruct (negb (response_ok status)); apply appendsOne_same.
  - destruct (negb (response_ok status)); apply appendsOne_same.
  - destruct (negb (response_ok status)); [apply appendsOne_same|].
    destruct (success data); [|apply appendsOne_same].
    destruct (answer data) as [text|]; [|apply appendsOne_same].
    apply (appendsOne_pushed
             {| content := text; sender := Ai;
                sourceUrls := source_urls data; timestamp := tAi |} st).
    apply (pushMessage_threads
             {| content := text; sender := Ai;
                sourceUrls := source_urls data; timestamp := tAi |}
             (addMessage text Ai (source_urls data) (hideTypingIndicator st))).
Qed.

Lemma switchMode_threads (mode : jsstr) (st : State) :
  historyMessages (switchMode mode st) = historyMessages st
  /\ pdfMessages (switchMode mode st) = pdfMessages st.
Proof.
  unfold switchMode.
  destruct (str_eqb mode mode_history);
    [|destruct (str_eqb mode mode_pdf)];
    rewrite ?loadMessages_chat; split; reflexivity.
Qed.

Lemma confirmAction_threads (st : State) :
  match pendingClearAction st with
  | Some ClearHistoryThread =>
    historyMessages (confirmAction st) = []
    /\ pdfMessages (confirmAction st) = pdfMessages st
  | Some ClearPdfThread =>
    historyMessages (confirmAction st) = historyMessages st
    /\ pdfMessages (confirmAction st) = []
  | None =>
    historyMessages (confirmAction st) = historyMessages st
    /\ pdfMessages (confirmAction st) = pdfMessages st
  end.
Proof.
  unfold confirmAction.
  destruct (pendingClearAction st) as [[|]|]; [| |split; reflexivity]; cbn.
  - destruct (str_eqb (currentMode st) mode_history); split; reflexivity.
  - destruct (str_eqb (currentMode st) mode_pdf); split; reflexivity.
Qed.

(** X10.  No handler rewrites or reorders a stored thread.  Only
    [sendMessage], a sample query and the continuation of [sendMessage]
    change a thread, by appending at most one message at the end of one
    of the two; only a confirmed clear empties a thread, and only the one
    the pending action was requested for; every other event leaves both
    threads as they are. *)
Theorem threads_append_only (s : Session) (e : Event) :
  threadsAfter e (pendingClearAction (app s))
    (historyMessages (app s)) (pdfMessages (app s))
    (historyMessages (app (step s e))) (pdfMessages (app (step s e))).
Proof.
  destruct e; cbn [threadsAfter step app started handled];
    try (split; reflexivity).
  - apply sendMessage_threads.
  - unfold sendSampleQuery.
    apply (sendMessage_threads tMsg tReq
             (set_inputValue (normalizeNewlines query) (app s))).
  - apply switchMode_threads.
  - destruct (handleFileSelect_frame files (app s)) as (-> & -> & _).
    split; reflexivity.
  - destruct (handleDrop_frame files (app s)) as (-> & -> & _).
    split; reflexivity.
  - destruct (removePDFFile_frame fileId (app s)) as (-> & -> & _).
    split; reflexivity.
  - apply confirmAction_threads.
  - destruct (awaiting s); [|apply appendsOne_same]. cbn [app].
    apply sendMessage_resume_threads.
Qed.

(** *** Requests *)

Lemma requestsValid_app (st st' : State) (l : list Effect) :
  effects st' = effects st ++ l ->
  Forall (fun e => validRequest e = true) l ->
  requestsValid st -> requestsValid st'.
Proof.
  unfold requestsValid. intros -> Hl H. apply Forall_app. now split.
Qed.

Lemma requestsValid_quiet (st st' : State) :
  quiet st st' -> requestsValid st -> requestsValid st'.
Proof.
  intros [_ [ns E]]. apply (requestsValid_app _ _ _ E).
  apply Forall_forall. intros e He. apply in_map_iff in He as (n & <- & _).
  reflexivity.
Qed.

Lemma sendMessage_catch_effects (e : JsError) (st : State) :
  effects (sendMessage_catch e st)
  = effects st ++ [ConsoleError e; SetTyping false].
Proof. cbn. now rewrite <- app_assoc. Qed.

Lemma sendMessage_requests (tMsg tReq : jsstr) (st : State) :
  requestsValid st -> requestsValid (fst (sendMessage tMsg tReq st)).
Proof.
  intros H.
  destruct (sendMessage_cases tMsg tReq st)
    as [->|[->|[(T & req & -> & V)|(T & ->)]]]; cbn [fst].
  - exact H.
  - apply (requestsValid_quiet st); [apply quiet_toast|exact H].
  - destruct (dispatched_state tMsg st) as (_ & _ & E).
    apply (requestsValid_app st _ [SetTyping true; Fetch req]); [| |exact H].
    + change (effects (emit (Fetch req) (dispatched tMsg st)))
        with (effects (dispatched tMsg st) ++ [Fetch req]).
      rewrite E. now rewrite <- app_assoc.
    + repeat constructor. exact V.
  - destruct (dispatched_state tMsg st) as (_ & _ & E).
    apply (requestsValid_app st _
             [SetTyping true; ConsoleError TypeError; SetTyping false]);
      [| |exact H].
    + rewrite sendMessage_catch_effects, E. now rewrite <- app_assoc.
    + repeat constructor.
Qed.

Lemma sendMessage_resume_requests (tAi : jsstr) (r : FetchResult) (st : State) :
  requestsValid st -> requestsValid (sendMessage_resume tAi r st).
Proof.
  intros H.
  assert (K : forall e x, requestsValid x ->
                          requestsValid (sendMessage_catch e x)).
  { intros e x Hx.
    apply (requestsValid_app x _ _ (sendMessage_catch_effects e x));
      [repeat constructor|exact Hx]. }
  assert (Hh : requestsValid (hideTypingIndicator st)).
  { apply (requestsValid_app st _ [SetTyping false]);
      [reflexivity|repeat constructor|exact H]. }
  destruct r as [reason|status [| |data]]; cbn [sendMessage_resume].
  - now apply K.
  - destruct (negb (response_ok status)); now apply K.
  - destruct (negb (response_ok status)); now apply K.
  - destruct (negb (response_ok status)); [now apply K|].
    destruct (success data); [|exact Hh].
    destruct (answer data) as [text|]; [|now apply K].
    unfold requestsValid.
    destruct (pushMessage_effects
                {| content := text; sender := Ai;
                   sourceUrls := source_urls data; timestamp := tAi |}
                (addMessage text Ai (source_urls data)
                   (hideTypingIndicator st))) as [-> _].
    exact Hh.
Qed.

Lemma step_requests (s : Session) (e : Event) :
  requestsValid (app s) -> requestsValid (app (step s e)).
Proof.
  intros H. pose proof (step_other_quiet s e) as Q.
  assert (Other : quiet (app s) (app (step s e))
                  /\ awaiting (step s e) = awaiting s ->
                  requestsValid (app (step s e))).
  { intros [Q' _]. exact (requestsValid_quiet _ _ Q' H). }
  destruct e; try exact (Other Q).
  - now apply sendMessage_requests.
  - apply (sendMessage_requests tMsg tReq
             (set_inputValue (normalizeNewlines query) (app s))).
    exact H.
  - cbn [step]. destruct (awaiting s); [|exact H]. cbn [app].
    now apply sendMessage_resume_requests.
Qed.

(** X11.  Every request the page ever sends carries a non-empty message
    with no white space at either end, and every request to the pdf
    endpoint carries at least one file. *)
Theorem requests_always_valid (events : list Event) :
  Forall (fun e => validRequest e = true)
    (effects (app (run initialSession events))).
Proof.
  assert (G : forall s, requestsValid (app s) ->
                        requestsValid (app (fold_left step events s))).
  { induction events as [|e events IH]; intros s H; cbn [fold_left].
    - exact H.
    - apply IH. now apply step_requests. }
  apply (G initialSession). constructor.
Qed.

(** *** Staged files *)

Lemma stageFile_ok (c : File * N) (st : State) :
  stagedAllOk st -> stagedAllOk (stageFile c st).
Proof.
  unfold stagedAllOk. destruct c as [f i]. unfold stageFile. intros H.
  destruct (str_eqb (fileType f) pdf_mime) eqn:Et; [|exact H].
  destruct (maxPdfSize <? fileSize f) eqn:Es; [exact H|].
  destruct (existsb (sameFile f) (uploadedPDFs st)); [exact H|].
  cbn. apply Forall_app. split; [exact H|].
  constructor; [|constructor].
  apply str_eqb_eq in Et. apply N.ltb_ge in Es. repeat split; assumption.
Qed.

Lemma handleFileSelect_ok (files : list (File * N)) (st : State) :
  stagedAllOk st -> stagedAllOk (handleFileSelect files st).
Proof.
  unfold handleFileSelect. revert st.
  induction files as [|c files IH]; intros st H; cbn [fold_left]; [exact H|].
  apply IH. now apply stageFile_ok.
Qed.

Lemma handleDrop_ok (files : list (File * N)) (st : State) :
  stagedAllOk st -> stagedAllOk (handleDrop files st).
Proof.
  unfold handleDrop. intros H.
  destruct (filter _ files); [exact H|]. now apply handleFileSelect_ok.
Qed.

Lemma removePDFFile_ok (fileId : N) (st : State) :
  stagedAllOk st -> stagedAllOk (removePDFFile fileId st).
Proof.
  unfold stagedAllOk, removePDFFile. intros H.
  destruct (spliceById fileId (uploadedPDFs st)) as [[p rest]|] eqn:E;
    [|exact H].
  apply spliceById_split in E as (l1 & l2 & E & ->). cbn.
  rewrite E in H. apply Forall_app in H as [H1 H2].
  apply Forall_app. split; [exact H1|]. now inversion H2.
Qed.

Lemma confirmAction_ok (st : State) :
  stagedAllOk st -> stagedAllOk (confirmAction st).
Proof.
  unfold stagedAllOk, confirmAction. intros H.
  destruct (pendingClearAction st) as [[|]|]; [| |exact H]; cbn.
  - now destruct (str_eqb (currentMode st) mode_history).
  - destruct (str_eqb (currentMode st) mode_pdf); constructor.
Qed.

Lemma step_ok (s : Session) (e : Event) :
  stagedAllOk (app s) -> stagedAllOk (app (step s e)).
Proof.
  unfold stagedAllOk at 2.
  intros H. destruct e; cbn [step app started handled]; try exact H.
  - now rewrite sendMessage_uploads.
  - unfold sendSampleQuery. now rewrite sendMessage_uploads.
  - now rewrite switchMode_uploads.
  - now apply handleFileSelect_ok.
  - now apply handleDrop_ok.
  - now apply removePDFFile_ok.
  - now apply confirmAction_ok.
  - destruct (awaiting s); [|exact H]. cbn [app].
    now rewrite sendMessage_resume_uploads.
Qed.

(** X12.  Every staged entry, at any time, is a file of type
    [application/pdf] of at most 10 MB (10485760 bytes included), whose
    recorded name and size are those of the file. *)
Theorem staged_files_checked (events : list Event) :
  Forall stagedOk (uploadedPDFs (app (run initialSession events))).
Proof.
  assert (G : forall s, stagedAllOk (app s) ->
                        stagedAllOk (app (fold_left step events s))).
  { induction events as [|e events IH]; intros s H; cbn [fold_left].
    - exact H.
    - apply IH. now apply step_ok. }
  apply (G initialSession). constructor.
Qed.

End Invariants.

(** ** Staging, removing and dropping files *)

Section Staging.

Context {U : UrlApi}.

(** X13.  A candidate of type [application/pdf], of at most 10485760
    bytes, whose (name, size) is not staged yet, is appended at the end of
    the staged list under the given id, and reported by the "added"
    toast; the entries staged before are kept as they are. *)
Theorem stageFile_accepts (f : File) (freshId : N) (st : State) :
  fileType f = pdf_mime ->
  fileSize f <= maxPdfSize ->
  ~ In (fileName f, fileSize f) (map stagedKey (uploadedPDFs st)) ->
  uploadedPDFs (stageFile (f, freshId) st)
  = uploadedPDFs st ++ [stagedEntry f freshId]
  /\ effects (stageFile (f, freshId) st)
     = effects st ++ [Toast (FileAdded (fileName f))].
Proof.
  intros Et Es Ek. unfold stageFile.
  apply str_eqb_eq in Et. apply N.ltb_ge in Es. rewrite Et, Es.
  destruct (existsb (sameFile f) (uploadedPDFs st)) eqn:E.
  - apply sameFile_key in E. contradiction.
  - split; reflexivity.
Qed.

Lemma stageFile_verdict (c : File * N) (st : State) :
  effects (stageFile c st)
  = effects st ++ [Toast (verdict c (uploadedPDFs st))].
Proof.
  destruct c as [f i]. unfold stageFile, verdict. cbn [fst].
  destruct (str_eqb (fileType f) pdf_mime); cbn [negb]; [|reflexivity].
  destruct (maxPdfSize <? fileSize f); [reflexivity|].
  destruct (existsb (sameFile f) (uploadedPDFs st)); reflexivity.
Qed.

Lemma stageFile_grows (c : File * N) (st : State) :
  (List.length (uploadedPDFs (stageFile c st))
   <= S (List.length (uploadedPDFs st)))%nat.
Proof.
  destruct (stageFile_uploads c st) as [->|[_ ->]];
    [|rewrite length_app; cbn]; lia.
Qed.

(** X14.  Every candidate of a batch is reported by exactly one toast and
    nothing else is shown.  The toasts come in batch order: the k-th one
    is the verdict on the k-th candidate, judged against what is staged
    once the candidates before it have been processed (not a PDF, else
    too large, else already staged, else added).  The staged list grows
    by at most the size of the batch. *)
Theorem handleFileSelect_one_toast_each (files : list (File * N)) (st : State) :
  exists ns,
    effects (handleFileSelect files st) = effects st ++ map Toast ns
    /\ List.length ns = List.length files
    /\ (forall k c,
          nth_error files k = Some c ->
          nth_error ns k
          = Some (verdict c
                    (uploadedPDFs (handleFileSelect (firstn k files) st))))
    /\ (List.length (uploadedPDFs (handleFileSelect files st))
        <= List.length (uploadedPDFs st) + List.length files)%nat.
Proof.
  revert st. induction files as [|c files IH]; intros st.
  - exists []. cbn. rewrite app_nil_r. repeat split; [|lia].
    intros [|k] c H; discriminate H.
  - destruct (IH (stageFile c st)) as (ns & E & L & Nth & G).
    exists (verdict c (uploadedPDFs st) :: ns).
    change (handleFileSelect (c :: files) st)
      with (handleFileSelect files (stageFile c st)).
    pose proof (stageFile_grows c st) as G1.
    rewrite E, stageFile_verdict, <- app_assoc. cbn [List.length map].
    repeat split; [now rewrite L| |cbn; lia].
    intros [|k] c' H.
    + cbn in H. injection H as ->. reflexivity.
    + cbn [nth_error] in H. cbn [nth_error firstn].
      change (handleFileSelect (c :: firstn k files) st)
        with (handleFileSelect (firstn k files) (stageFile c st)).
      now apply Nth.
Qed.

Lemma spliceById_absent (fileId : N) (l : list StagedPdf) :
  (forall p, In p l -> id p <> fileId) -> spliceById fileId l = None.
Proof.
  induction l as [|q l IH]; intros H; cbn [spliceById]; [reflexivity|].
  destruct (id q =? fileId) eqn:E.
  - apply N.eqb_eq in E. exfalso. apply (H q); [now left|exact E].
  - rewrite IH; [reflexivity|]. intros p Hp. apply H. now right.
Qed.

Lemma spliceById_nth (l : list StagedPdf) :
  forall k p, nth_error l k = Some p -> NoDup (map id l) ->
  spliceById (id p) l = Some (p, firstn k l ++ skipn (S k) l).
Proof.
  induction l as [|q l IH]; intros [|k] p Hk Hd; try discriminate Hk.
  - cbn in Hk. injection Hk as ->. cbn. now rewrite N.eqb_refl.
  - cbn [nth_error] in Hk. cbn [map] in Hd.
    apply NoDup_cons_iff in Hd as [Hq Hd].
    cbn [spliceById]. destruct (id q =? id p) eqn:E.
    + apply N.eqb_eq in E. exfalso. apply Hq. rewrite E.
      apply in_map. eapply nth_error_In. exact Hk.
    + rewrite (IH k p Hk Hd). reflexivity.
Qed.

(** X15.  Removing by an id that no staged entry has changes nothing and
    shows no toast.  When the ids are pairwise distinct, removing by the
    id of the k-th entry removes exactly that entry, keeps the others in
    order, and reports its name. *)
Theorem removePDFFile_by_id (st : State) :
  (forall fileId,
     (forall p, In p (uploadedPDFs st) -> id p <> fileId) ->
     removePDFFile fileId st = st)
  /\ (forall k p,
        nth_error (uploadedPDFs st) k = Some p ->
        NoDup (map id (uploadedPDFs st)) ->
        uploadedPDFs (removePDFFile (id p) st)
        = firstn k (uploadedPDFs st) ++ skipn (S k) (uploadedPDFs st)
        /\ effects (removePDFFile (id p) st)
           = effects st ++ [Toast (FileRemoved (name p))]).
Proof.
  split.
  - intros fileId H. unfold removePDFFile.
    now rewrite (spliceById_absent _ _ H).
  - intros k p Hk Hd. unfold removePDFFile.
    rewrite (spliceById_nth _ k p Hk Hd). split; reflexivity.
Qed.

Lemma spliceById_last (fileId : N) (l : list StagedPdf) (e : StagedPdf) :
  (forall p, In p l -> id p <> fileId) -> id e = fileId ->
  spliceById fileId (l ++ [e]) = Some (e, l).
Proof.
  intros H He. induction l as [|q l IH].
  - cbn. apply N.eqb_eq in He. now rewrite He.
  - change ((q :: l) ++ [e]) with (q :: (l ++ [e])). cbn [spliceById].
    destruct (id q =? fileId) eqn:E.
    + apply N.eqb_eq in E. exfalso. apply (H q); [now left|exact E].
    + rewrite IH; [reflexivity|]. intros p Hp. apply H. now right.
Qed.

(** X16.  Staging a file and then removing it by the id it was given
    brings the staged list back to what it was, provided no entry staged
    before has that id. *)
Theorem stage_then_remove (f : File) (freshId : N) (st : State) :
  fileType f = pdf_mime ->
  fileSize f <= maxPdfSize ->
  ~ In (fileName f, fileSize f) (map stagedKey (uploadedPDFs st)) ->
  (forall p, In p (uploadedPDFs st) -> id p <> freshId) ->
  uploadedPDFs (removePDFFile freshId (stageFile (f, freshId) st))
  = uploadedPDFs st.
Proof.
  intros Et Es Ek Hid. unfold stageFile.
  apply str_eqb_eq in Et. apply N.ltb_ge in Es. rewrite Et, Es.
  destruct (existsb (sameFile f) (uploadedPDFs st)) eqn:E.
  - apply sameFile_key in E. contradiction.
  - unfold removePDFFile. cbn [uploadedPDFs emit set_uploadedPDFs].
    rewrite (spliceById_last freshId (uploadedPDFs st)
               {| name := fileName f; size := fileSize f; file := f;
                  id := freshId |} Hid eq_refl).
    reflexivity.
Qed.

Lemma stageFile_not_pdf (c : File * N) (st : State) :
  isPdf c = false -> uploadedPDFs (stageFile c st) = uploadedPDFs st.
Proof.
  destruct c as [f i]. unfold isPdf, stageFile. cbn [fst]. now intros ->.
Qed.

Lemma handleFileSelect_filter (files : list (File * N)) (st : State) :
  uploadedPDFs (handleFileSelect (filter isPdf files) st)
  = uploadedPDFs (handleFileSelect files st).
Proof.
  revert st. induction files as [|c files IH]; intros st; [reflexivity|].
  cbn [filter]. destruct (isPdf c) eqn:E.
  - change (handleFileSelect (c :: filter isPdf files) st)
      with (handleFileSelect (filter isPdf files) (stageFile c st)).
    change (handleFileSelect (c :: files) st)
      with (handleFileSelect files (stageFile c st)).
    apply IH.
  - change (handleFileSelect (c :: files) st)
      with (handleFileSelect files (stageFile c st)).
    rewrite IH. apply handleFileSelect_uploads_ext.
    symmetry. now apply stageFile_not_pdf.
Qed.

(** X17.  Dropping files stages exactly what selecting the same files
    would stage: the two paths differ in their toasts only. *)
Theorem handleDrop_stages_like_select (files : list (File * N)) (st : State) :
  uploadedPDFs (handleDrop files st)
  = uploadedPDFs (handleFileSelect files st).
Proof.
  rewrite <- handleFileSelect_filter. unfold handleDrop.
  fold isPdf. change (fun c : File * N => str_eqb (fileType (fst c)) pdf_mime)
    with isPdf.
  destruct (filter isPdf files); reflexivity.
Qed.

(** ** The confirmation slot *)

(** X18.  [confirmAction] runs the pending action once: it leaves the
    slot empty, so that confirming again changes nothing. *)
Theorem confirmAction_once (st : State) :
  pendingClearAction (confirmAction st) = None
  /\ confirmAction (confirmAction st) = confirmAction st.
Proof.
  assert (P : pendingClearAction (confirmAction st) = None).
  { unfold confirmAction.
    destruct (pendingClearAction st) eqn:E; [reflexivity|exact E]. }
  split; [exact P|].
  unfold confirmAction at 1. now rewrite P.
Qed.

(** X19.  The slot holds one action: asking for a second clear replaces
    the first, which is then never run; and cancelling empties the slot,
    after which confirming clears nothing. *)
Theorem confirmation_slot (st : State) :
  confirmAction (clearPDFChat (clearHistoryMode st))
  = confirmAction (clearPDFChat st)
  /\ confirmAction (clearHistoryMode (clearPDFChat st))
     = confirmAction (clearHistoryMode st)
  /\ confirmAction (hideConfirmation (clearHistoryMode st))
     = hideConfirmation st
  /\ confirmAction (hideConfirmation (clearPDFChat st))
     = hideConfirmation st.
Proof. repeat split. Qed.

(** ** Sample queries *)

Lemma normalizeNewlines_blank_bounded (n : nat) :
  forall s, (List.length s <= n)%nat ->
  forallb trimmable (normalizeNewlines s) = forallb trimmable s.
Proof.
  induction n as [|n IH]; intros s L.
  - destruct s; [reflexivity|cbn in L; lia].
  - destruct s as [|c r]; [reflexivity|]. cbn [List.length] in L.
    cbn [normalizeNewlines]. destruct (c =? 0x0D) eqn:Ec.
    + apply N.eqb_eq in Ec. subst c.
      destruct r as [|c' r']; [reflexivity|]. cbn [List.length] in L.
      destruct (c' =? 0x0A) eqn:El.
      * apply N.eqb_eq in El. subst c'. cbn [forallb].
        rewrite (IH r') by lia. reflexivity.
      * cbn [forallb]. rewrite (IH (c' :: r')) by (cbn; lia). reflexivity.
    + cbn [forallb]. now rewrite (IH r) by lia.
Qed.

Lemma normalizeNewlines_blank (s : jsstr) :
  forallb trimmable (normalizeNewlines s) = forallb trimmable s.
Proof. now apply (normalizeNewlines_blank_bounded (List.length s)). Qed.

Lemma normalizeNewlines_without_cr (s : jsstr) :
  contains 0x0D s = false -> normalizeNewlines s = s.
Proof.
  unfold contains. induction s as [|c r IH]; cbn [existsb normalizeNewlines];
    [reflexivity|].
  intros H. apply orb_false_iff in H as [H1 H2].
  rewrite N.eqb_sym in H1. rewrite H1. f_equal. now apply IH.
Qed.

(** X20.  A sample query reaches the script as the text area returns it,
    with CR LF and lone CR turned into LF (unchanged when it has no CR).
    Clicked while a request is pending it is not sent, yet that text
    replaces what the input box held.  Clicked when idle in history
    mode, that text is sent trimmed to the history endpoint and the
    input box ends empty. *)
Theorem sendSampleQuery_behaviour (query tMsg tReq : jsstr) (st : State) :
  (isTyping st = true ->
   sendSampleQuery query tMsg tReq st
   = (set_inputValue (normalizeNewlines query) st, None))
  /\ (forallb trimmable query = false ->
      isTyping st = false ->
      currentMode st = mode_history ->
      snd (sendSampleQuery query tMsg tReq st)
      = Some (RagChat (trim (normalizeNewlines query)) tReq)
      /\ inputValue (fst (sendSampleQuery query tMsg tReq st)) = [])
  /\ (contains 0x0D query = false -> normalizeNewlines query = query).
Proof.
  unfold sendSampleQuery. split; [|split].
  - intros T. now apply sendMessage_busy.
  - intros B T M. rewrite <- normalizeNewlines_blank in B.
    assert (P : str_eqb
                  (currentMode (set_inputValue (normalizeNewlines query) st))
                  mode_pdf
                && (N.of_nat
                      (List.length
                         (uploadedPDFs
                            (set_inputValue (normalizeNewlines query) st)))
                    =? 0) = false).
    { cbn. rewrite M. reflexivity. }
    rewrite (sendMessage_accepted tMsg tReq
               (set_inputValue (normalizeNewlines query) st) B T P).
    cbn [currentMode set_inputValue]. rewrite M, str_eqb_refl.
    cbn [fst snd]. split; reflexivity.
  - apply normalizeNewlines_without_cr.
Qed.

End Staging.

(** ** More on formatting and references *)

Lemma contains_app (c : unit16) (a b : jsstr) :
  contains c (a ++ b) = contains c a || contains c b.
Proof. apply existsb_app. Qed.

Lemma replace_newlines_no_linefeed (rep s : jsstr) :
  contains linefeed rep = false ->
  contains linefeed (replace_newlines rep s) = false.
Proof.
  intros Hr. induction s as [|c s IH]; cbn [replace_newlines]; [reflexivity|].
  destruct (c =? 0x0A) eqn:E.
  - now rewrite contains_app, Hr, IH.
  - unfold contains in *. cbn [existsb]. rewrite IH.
    unfold linefeed. rewrite N.eqb_sym, E. reflexivity.
Qed.

Lemma close_lazy_unfold (d s : jsstr) :
  close_lazy d s
  = match strip_prefix d s with
    | Some rest => Some ([], rest)
    | None =>
      match s with
      | [] => None
      | c :: s' =>
        if is_line_terminator c then None
        else match close_lazy d s' with
             | Some (cap, rest) => Some (c :: cap, rest)
             | None => None
             end
      end
    end.
Proof. destruct s; reflexivity. Qed.

Lemma strip_prefix_split (d a b : jsstr) :
  contains linefeed d = false ->
  strip_prefix d (a ++ linefeed :: b)
  = match strip_prefix d a with
    | Some r => Some (r ++ linefeed :: b)
    | None => None
    end.
Proof.
  unfold contains. revert a.
  induction d as [|x d IH]; intros a H; [reflexivity|].
  cbn [existsb] in H. apply orb_false_iff in H as [H1 H2].
  destruct a as [|y a].
  - cbn [Datatypes.app strip_prefix]. rewrite N.eqb_sym, H1. reflexivity.
  - change ((y :: a) ++ linefeed :: b) with (y :: (a ++ linefeed :: b)).
    cbn [strip_prefix]. destruct (x =? y); [now apply IH|reflexivity].
Qed.

Lemma close_lazy_nil (x : unit16) (d : jsstr) : close_lazy (x :: d) [] = None.
Proof. reflexivity. Qed.

Lemma close_lazy_split (x : unit16) (d a b : jsstr) :
  contains linefeed (x :: d) = false ->
  close_lazy (x :: d) (a ++ linefeed :: b)
  = match close_lazy (x :: d) a with
    | Some (cap, rest) => Some (cap, rest ++ linefeed :: b)
    | None => None
    end.
Proof.
  intros H. induction a as [|y a IH].
  - rewrite close_lazy_nil, close_lazy_unfold.
    rewrite (strip_prefix_split _ [] b H). reflexivity.
  - change ((y :: a) ++ linefeed :: b) with (y :: (a ++ linefeed :: b)).
    rewrite (close_lazy_unfold _ (y :: (a ++ linefeed :: b))).
    rewrite (close_lazy_unfold _ (y :: a)).
    change (y :: (a ++ linefeed :: b)) with ((y :: a) ++ linefeed :: b).
    rewrite (strip_prefix_split _ (y :: a) b H).
    destruct (strip_prefix (x :: d) (y :: a)); [reflexivity|].
    destruct (is_line_terminator y); [reflexivity|].
    rewrite IH. now destruct (close_lazy (x :: d) a) as [[cap rest]|].
Qed.

Lemma replace_pair_go_cons (n : nat) (d opn cls : jsstr) (ch : unit16)
    (s : jsstr) :
  replace_pair_go (S n) d opn cls (ch :: s)
  = match strip_prefix d (ch :: s) with
    | Some inner =>
      match close_lazy d inner with
      | Some (cap, rest) => opn ++ cap ++ cls ++ replace_pair_go n d opn cls rest
      | None => ch :: replace_pair_go n d opn cls s
      end
    | None => ch :: replace_pair_go n d opn cls s
    end.
Proof. reflexivity. Qed.

(** No match spans a line feed: the scan of the text is the scan of what
    precedes the line feed, the line feed, and the scan of what
    follows. *)
Lemma replace_pair_go_split (x : unit16) (d opn cls b : jsstr) :
  contains linefeed (x :: d) = false ->
  forall n a, (List.length (a ++ linefeed :: b) <= n)%nat ->
  replace_pair_go n (x :: d) opn cls (a ++ linefeed :: b)
  = replace_pair_go n (x :: d) opn cls a
    ++ linefeed :: replace_pair_go n (x :: d) opn cls b.
Proof.
  intros H. induction n as [|n IH]; intros a L.
  - rewrite length_app in L. cbn in L. lia.
  - assert (Fb : replace_pair_go n (x :: d) opn cls b
                 = replace_pair_go (S n) (x :: d) opn cls b).
    { apply replace_pair_go_fuel; rewrite length_app in L; cbn in L; lia. }
    destruct a as [|ch a].
    + change ([] ++ linefeed :: b) with (linefeed :: b).
      rewrite replace_pair_go_cons.
      change (linefeed :: b) with ([] ++ linefeed :: b) at 1.
      rewrite (strip_prefix_split _ [] b H). cbn [strip_prefix].
      rewrite Fb. reflexivity.
    + change ((ch :: a) ++ linefeed :: b) with (ch :: (a ++ linefeed :: b)).
      rewrite !replace_pair_go_cons.
      change (ch :: (a ++ linefeed :: b)) with ((ch :: a) ++ linefeed :: b).
      rewrite (strip_prefix_split _ (ch :: a) b H).
      change ((ch :: a) ++ linefeed :: b) with (ch :: (a ++ linefeed :: b))
        in L.
      cbn [List.length] in L.
      destruct (strip_prefix (x :: d) (ch :: a)) as [inner|] eqn:E.
      * rewrite (close_lazy_split _ _ inner b H).
        destruct (close_lazy (x :: d) inner) as [[cap rest]|] eqn:E'.
        -- apply strip_prefix_length in E. apply close_lazy_length in E'.
           cbn [List.length] in E, E'. rewrite length_app in L.
           rewrite IH by (rewrite length_app; cbn [List.length] in *; lia).
           rewrite Fb, <- !app_assoc. reflexivity.
        -- rewrite IH by lia. rewrite Fb. reflexivity.
      * rewrite IH by lia. rewrite Fb. reflexivity.
Qed.

Lemma replace_pair_split (x : unit16) (d opn cls a b : jsstr) :
  contains linefeed (x :: d) = false ->
  replace_pair (x :: d) opn cls (a ++ linefeed :: b)
  = replace_pair (x :: d) opn cls a
    ++ linefeed :: replace_pair (x :: d) opn cls b.
Proof.
  intros H. unfold replace_pair.
  rewrite (replace_pair_go_split x d opn cls b H _ a (le_n _)).
  f_equal; [|f_equal]; apply replace_pair_go_fuel;
    rewrite ?length_app; cbn [List.length]; lia.
Qed.

Lemma replace_newlines_app (rep a b : jsstr) :
  replace_newlines rep (a ++ b)
  = replace_newlines rep a ++ replace_newlines rep b.
Proof.
  induction a as [|c a IH]; [reflexivity|].
  change ((c :: a) ++ b) with (c :: (a ++ b)). cbn [replace_newlines].
  rewrite IH. destruct (c =? 0x0A); [now rewrite <- app_assoc|reflexivity].
Qed.

(** X21.  [formatMessage] works line by line: a line feed of the content
    becomes [<br>] in the result, with the formatted text of what
    precedes it before and the formatted text of what follows it after
    (no bold or italic run spans a line feed).  No line feed is left in
    the result. *)
Theorem formatMessage_line_by_line :
  (forall a b,
     formatMessage (a ++ linefeed :: b)
     = formatMessage a ++ js "<br>" ++ formatMessage b)
  /\ (forall content, contains linefeed (formatMessage content) = false).
Proof.
  split.
  - intros a b. unfold formatMessage, formatBold, formatItalic, formatBreaks.
    change (js "**") with (star :: js "*"). change (js "*") with [star].
    rewrite (replace_pair_split star [star]) by reflexivity.
    rewrite (replace_pair_split star []) by reflexivity.
    rewrite replace_newlines_app. reflexivity.
  - intros content. unfold formatMessage, formatBreaks.
    now apply replace_newlines_no_linefeed.
Qed.

Lemma has_line_terminator_linefeed (s : jsstr) :
  has_line_terminator s = false -> contains linefeed s = false.
Proof.
  unfold has_line_terminator, contains.
  induction s as [|c s IH]; cbn [existsb]; [reflexivity|].
  intros H. apply orb_false_iff in H as [H1 H2]. rewrite (IH H2).
  unfold is_line_terminator in H1.
  apply orb_false_iff in H1 as [H1 _]. apply orb_false_iff in H1 as [H1 _].
  apply orb_false_iff in H1 as [H1 _].
  unfold linefeed. rewrite N.eqb_sym, H1. reflexivity.
Qed.

(** The closing delimiter of a lazy group is the first one after a run
    free of the delimiter's first unit and of line terminators. *)
Lemma close_lazy_found (x : unit16) (d cap rest : jsstr) :
  contains x cap = false -> has_line_terminator cap = false ->
  close_lazy (x :: d) (cap ++ (x :: d) ++ rest) = Some (cap, rest).
Proof.
  unfold contains, has_line_terminator.
  induction cap as [|c cap IH]; cbn [existsb]; intros Hx Hl.
  - change ([] ++ (x :: d) ++ rest) with ((x :: d) ++ rest).
    now rewrite close_lazy_unfold, strip_prefix_app.
  - apply orb_false_iff in Hx as [Hx1 Hx2].
    apply orb_false_iff in Hl as [Hl1 Hl2].
    change ((c :: cap) ++ (x :: d) ++ rest)
      with (c :: (cap ++ (x :: d) ++ rest)).
    rewrite close_lazy_unfold. cbn [strip_prefix]. rewrite Hx1, Hl1.
    now rewrite (IH Hx2 Hl2).
Qed.

(** One marked run at the head of the text: it is wrapped and the scan
    goes on after its closing delimiter. *)
Lemma replace_pair_wrap (x : unit16) (d opn cls cap rest : jsstr) :
  contains x cap = false -> has_line_terminator cap = false ->
  replace_pair (x :: d) opn cls ((x :: d) ++ cap ++ (x :: d) ++ rest)
  = opn ++ cap ++ cls ++ replace_pair (x :: d) opn cls rest.
Proof.
  intros Hx Hl. unfold replace_pair.
  remember (List.length ((x :: d) ++ cap ++ (x :: d) ++ rest)) as n eqn:En.
  destruct n as [|n]; [discriminate En|].
  change ((x :: d) ++ cap ++ (x :: d) ++ rest)
    with (x :: (d ++ cap ++ (x :: d) ++ rest)) at 1.
  cbn [replace_pair_go].
  change (x :: (d ++ cap ++ (x :: d) ++ rest))
    with ((x :: d) ++ cap ++ (x :: d) ++ rest).
  rewrite strip_prefix_app, (close_lazy_found _ _ _ _ Hx Hl).
  do 3 f_equal. apply replace_pair_go_fuel; [|lia].
  rewrite !length_app in En. cbn [List.length] in En. lia.
Qed.

Lemma replace_pair_go_tail_star (n : nat) (cap : jsstr) :
  contains star cap = false ->
  replace_pair_go n (js "**") (js "<strong>") (js "</strong>") (cap ++ [star])
  = cap ++ [star].
Proof.
  unfold contains. revert cap.
  induction n as [|n IH]; intros cap H; [reflexivity|].
  destruct cap as [|c cap].
  - cbn. now destruct n.
  - cbn [existsb] in H. apply orb_false_iff in H as [H1 H2].
    change ((c :: cap) ++ [star]) with (c :: (cap ++ [star])).
    cbn [replace_pair_go].
    change (js "**") with (star :: js "*") at 1.
    cbn [strip_prefix]. rewrite H1. f_equal. now apply IH.
Qed.

Lemma formatBold_single_stars (cap : jsstr) :
  contains star cap = false ->
  formatBold (js "*" ++ cap ++ js "*") = js "*" ++ cap ++ js "*".
Proof.
  intros H. unfold formatBold, replace_pair.
  change (js "*" ++ cap ++ js "*") with (star :: (cap ++ [star])).
  cbn [List.length replace_pair_go].
  assert (E : match strip_prefix (js "**") (star :: (cap ++ [star])) with
              | Some inner => close_lazy (js "**") inner
              | None => None
              end = None).
  { destruct cap as [|c cap]; [reflexivity|].
    unfold contains in H. cbn [existsb] in H.
    apply orb_false_iff in H as [H1 _].
    change (js "**") with (star :: star :: []).
    change ((c :: cap) ++ [star]) with (c :: (cap ++ [star])).
    cbn [strip_prefix]. rewrite N.eqb_refl, H1. reflexivity. }
  destruct (strip_prefix (js "**") (star :: (cap ++ [star]))) as [inner|];
    [rewrite E|]; f_equal; now apply replace_pair_go_tail_star.
Qed.

(** X22.  A run of text free of ['*'] and of line terminators, put
    between ["**"] and ["**"], comes out between [<strong>] and
    [</strong>]; put between ["*"] and ["*"] it comes out between [<em>]
    and [</em>].  The markers themselves are gone. *)
Theorem formatMessage_wraps_marked_run (cap : jsstr) :
  contains star cap = false ->
  has_line_terminator cap = false ->
  formatMessage (js "**" ++ cap ++ js "**")
  = js "<strong>" ++ cap ++ js "</strong>"
  /\ formatMessage (js "*" ++ cap ++ js "*") = js "<em>" ++ cap ++ js "</em>".
Proof.
  intros Hs Hl.
  pose proof (has_line_terminator_linefeed _ Hl) as Hn.
  split.
  - unfold formatMessage, formatBold.
    change (js "**" ++ cap ++ js "**")
      with ((star :: js "*") ++ cap ++ (star :: js "*") ++ []).
    rewrite (replace_pair_wrap star (js "*") _ _ cap [] Hs Hl).
    change (replace_pair (star :: js "*") (js "<strong>") (js "</strong>") [])
      with (@nil unit16).
    rewrite app_nil_r.
    unfold formatItalic, replace_pair. change (js "*") with [star].
    rewrite replace_pair_go_absent
      by (rewrite !contains_app, Hs; reflexivity).
    apply replace_newlines_absent.
    rewrite !contains_app, Hn. reflexivity.
  - unfold formatMessage. rewrite (formatBold_single_stars _ Hs).
    unfold formatItalic.
    change (js "*" ++ cap ++ js "*") with ([star] ++ cap ++ [star] ++ []).
    change (js "*") with [star].
    rewrite (replace_pair_wrap star [] _ _ cap [] Hs Hl).
    change (replace_pair [star] (js "<em>") (js "</em>") [])
      with (@nil unit16).
    rewrite app_nil_r.
    apply replace_newlines_absent.
    rewrite !contains_app, Hn. reflexivity.
Qed.

Lemma formatMessage_wraps_marked_run_witness :
  formatMessage (js "**" ++ js "Hai Ba Trung" ++ js "**")
  = js "<strong>" ++ js "Hai Ba Trung" ++ js "</strong>"
  /\ formatMessage (js "*" ++ js "Hai Ba Trung" ++ js "*")
     = js "<em>" ++ js "Hai Ba Trung" ++ js "</em>".
Proof.
  apply (formatMessage_wraps_marked_run (js "Hai Ba Trung")); reflexivity.
Defined.

Lemma replace_first_absent (pat rep s : jsstr) :
  occurs pat s = false -> replace_first pat rep s = s.
Proof.
  induction s as [|c s IH]; cbn [occurs replace_first].
  - destruct (strip_prefix pat []); [discriminate|reflexivity].
  - destruct (strip_prefix pat (c :: s)); [discriminate|].
    intros H. f_equal. now apply IH.
Qed.

Section References.

Context {U : UrlApi}.

(** X23.  The label of a parsed URL is the host itself when the host
    does not contain ["www."], and the rest of the host when the host
    starts with ["www."]. *)
Theorem getDomainFromUrl_label (url host : jsstr) :
  url_hostname url = Some host ->
  (occurs (js "www.") host = false -> getDomainFromUrl url = host)
  /\ (forall rest, host = js "www." ++ rest -> getDomainFromUrl url = rest).
Proof.
  intros E. unfold getDomainFromUrl. rewrite E. split.
  - intros H. now apply replace_first_absent.
  - intros rest ->. now rewrite replace_first_prefix.
Qed.

Lemma referencesFrom_length (index : N) (urls : list jsstr) :
  List.length (referencesFrom index urls) = List.length urls.
Proof.
  revert index. induction urls as [|u urls IH]; intros index; cbn;
    [reflexivity|]. now rewrite IH.
Qed.

Lemma referencesFrom_nth (urls : list jsstr) :
  forall index k url, nth_error urls k = Some url ->
  nth_error (referencesFrom index urls) k
  = Some {| refNumber := index + N.of_nat k + 1; refUrl := url;
            refLabel := getDomainFromUrl url |}.
Proof.
  induction urls as [|u urls IH]; intros index [|k] url Hk;
    try discriminate Hk.
  - cbn in Hk. injection Hk as ->. cbn. now rewrite N.add_0_r.
  - cbn [nth_error] in Hk. cbn [referencesFrom nth_error].
    rewrite (IH (index + 1) k url Hk). do 2 f_equal. lia.
Qed.

(** X24.  The reference block of an AI message lists its source URLs
    once each and in order: the k-th entry (from 0) is numbered k + 1,
    links to the k-th URL and is labelled by [getDomainFromUrl].  A user
    message never gets a reference block, whatever URLs come with it. *)
Theorem renderMessage_reference_block (mode content : jsstr)
    (urls : list jsstr) :
  List.length (nodeRefs (renderMessage mode content Ai (Some urls)))
  = List.length urls
  /\ (forall k url,
        nth_error urls k = Some url ->
        nth_error (nodeRefs (renderMessage mode content Ai (Some urls))) k
        = Some {| refNumber := N.of_nat k + 1; refUrl := url;
                  refLabel := getDomainFromUrl url |})
  /\ (forall given, nodeRefs (renderMessage mode content User given) = []).
Proof.
  split; [|split].
  - destruct urls as [|u urls]; [reflexivity|].
    cbn [renderMessage nodeRefs Sender_eqb]. apply referencesFrom_length.
  - intros k url Hk. destruct urls as [|u urls]; [now destruct k|].
    cbn [renderMessage nodeRefs Sender_eqb].
    now rewrite (referencesFrom_nth _ 0 k url Hk).
  - intros [[|u us]|]; reflexivity.
Qed.

End References.

(** ** Worked instances *)


Lemma pdf_dispatch_witness :
  let st' := fst (sendMessage (U := Url.simple) sampleTime sampleTime
                    pdfModeReady) in
  snd (sendMessage (U := Url.simple) sampleTime sampleTime pdfModeReady)
  = Some (PdfRagChat (trim (inputValue pdfModeReady)) sampleTime
            (map file (uploadedPDFs pdfModeReady)))
  /\ pdfMessages st'
     = pdfMessages pdfModeReady ++ [userMessage sampleTime pdfModeReady]
  /\ historyMessages st' = historyMessages pdfModeReady
  /\ uploadedPDFs st' = uploadedPDFs pdfModeReady
  /\ isTyping st' = true.
Proof.
  apply (@pdf_dispatch Url.simple sampleTime sampleTime pdfModeReady);
    try reflexivity.
  vm_compute. discriminate.
Defined.

Lemma unknown_mode_send_witness :
  let st' := fst (sendMessage (U := Url.simple) sampleTime sampleTime
                    strangeMode) in
  snd (sendMessage (U := Url.simple) sampleTime sampleTime strangeMode) = None
  /\ pdfMessages st'
     = pdfMessages strangeMode ++ [userMessage sampleTime strangeMode]
  /\ historyMessages st' = historyMessages strangeMode
  /\ effects st'
     = effects strangeMode
       ++ [SetTyping true; ConsoleError TypeError; SetTyping false]
  /\ chat (view st')
     = removeTyping
         (chat (view strangeMode)
          ++ [renderMessage (U := Url.simple) (currentMode strangeMode)
                (trim (inputValue strangeMode)) User None;
              TypingNode])
       ++ [renderMessage (U := Url.simple) (currentMode strangeMode)
             fallbackConnection Ai None]
  /\ isTyping st' = false.
Proof.
  apply (@unknown_mode_send Url.simple sampleTime sampleTime strangeMode);
    try reflexivity; vm_compute; discriminate.
Defined.

Lemma stageFile_accepts_witness :
  uploadedPDFs (stageFile (tenMegabytePdf, 7) stagedOnce)
  = uploadedPDFs stagedOnce ++ [stagedEntry tenMegabytePdf 7]
  /\ effects (stageFile (tenMegabytePdf, 7) stagedOnce)
     = effects stagedOnce ++ [Toast (FileAdded (fileName tenMegabytePdf))].
Proof.
  apply (stageFile_accepts tenMegabytePdf 7 stagedOnce).
  - reflexivity.
  - apply N.leb_le. reflexivity.
  - vm_compute. intros [H|[]]. discriminate H.
Defined.

Lemma removePDFFile_by_id_witness :
  removePDFFile 9 stagedTwice = stagedTwice
  /\ uploadedPDFs (removePDFFile 3 stagedTwice) = [stagedEntry samplePdf 1]
  /\ effects (removePDFFile 3 stagedTwice)
     = effects stagedTwice ++ [Toast (FileRemoved (fileName otherPdf))].
Proof.
  destruct (removePDFFile_by_id stagedTwice) as [Absent Present].
  split.
  - apply Absent. intros p Hp. vm_compute in Hp.
    destruct Hp as [<-|[<-|[]]]; vm_compute; discriminate.
  - apply (Present 1%nat (stagedEntry otherPdf 3)).
    + reflexivity.
    + vm_compute. repeat constructor; cbn; intuition discriminate.
Defined.

Lemma stage_then_remove_witness :
  uploadedPDFs (removePDFFile 7 (stageFile (tenMegabytePdf, 7) stagedTwice))
  = uploadedPDFs stagedTwice.
Proof.
  apply (stage_then_remove tenMegabytePdf 7 stagedTwice).
  - reflexivity.
  - apply N.leb_le. reflexivity.
  - vm_compute. intros [H|[H|[]]]; discriminate H.
  - intros p Hp. vm_compute in Hp.
    destruct Hp as [<-|[<-|[]]]; vm_compute; discriminate.
Defined.

Lemma sendSampleQuery_behaviour_witness :
  (let busy := app (run (U := Url.simple) initialSession askedInHistory) in
   sendSampleQuery (U := Url.simple) twoLineQuery sampleTime sampleTime busy
   = (set_inputValue (normalizeNewlines twoLineQuery) busy, None))
  /\ snd (sendSampleQuery (U := Url.simple) twoLineQuery sampleTime sampleTime
            initialState)
     = Some (RagChat (trim (normalizeNewlines twoLineQuery)) sampleTime)
  /\ inputValue (fst (sendSampleQuery (U := Url.simple) twoLineQuery
                        sampleTime sampleTime initialState)) = []
  /\ normalizeNewlines (js "Ly Thai To la ai?") = js "Ly Thai To la ai?".
Proof.
  split; [|split; [|split]].
  - apply (@sendSampleQuery_behaviour Url.simple twoLineQuery sampleTime
             sampleTime
             (app (run (U := Url.simple) initialSession askedInHistory))).
    reflexivity.
  - apply (@sendSampleQuery_behaviour Url.simple twoLineQuery sampleTime
             sampleTime initialState); reflexivity.
  - apply (@sendSampleQuery_behaviour Url.simple twoLineQuery sampleTime
             sampleTime initialState); reflexivity.
  - apply (proj2 (proj2 (@sendSampleQuery_behaviour Url.simple
                           (js "Ly Thai To la ai?") sampleTime sampleTime
                           initialState))).
    reflexivity.
Defined.

Lemma handleFileSelect_one_toast_each_witness :
  exists ns,
    effects (handleFileSelect sampleBatch stagedOnce)
    = effects stagedOnce ++ map Toast ns
    /\ nth_error ns 0 = Some (FileDuplicate (fileName samplePdf))
    /\ nth_error ns 1 = Some (FileNotPdf (fileName notAPdf))
    /\ nth_error ns 2 = Some (FileAdded (fileName otherPdf))
    /\ nth_error ns 3 = Some (FileDuplicate (fileName otherPdf)).
Proof.
  destruct (handleFileSelect_one_toast_each sampleBatch stagedOnce)
    as (ns & E & _ & Nth & _).
  exists ns. split; [exact E|].
  repeat split.
  - apply (Nth 0%nat (samplePdf, 11)). reflexivity.
  - apply (Nth 1%nat (notAPdf, 12)). reflexivity.
  - apply (Nth 2%nat (otherPdf, 13)). reflexivity.
  - apply (Nth 3%nat (otherPdf, 14)). reflexivity.
Defined.

Lemma getDomainFromUrl_label_witness :
  getDomainFromUrl (U := Url.simple) (js "http://example.com/x")
  = js "example.com"
  /\ getDomainFromUrl (U := Url.simple)
       (js "https://www.lichsu.vn/bai-viet?id=3") = js "lichsu.vn".
Proof.
  split.
  - apply (proj1 (@getDomainFromUrl_label Url.simple
                    (js "http://example.com/x") (js "example.com") eq_refl)).
    reflexivity.
  - apply (proj2 (@getDomainFromUrl_label Url.simple
                    (js "https://www.lichsu.vn/bai-viet?id=3")
                    (js "www.lichsu.vn") eq_refl) (js "lichsu.vn")).
    reflexivity.
Defined.

Lemma renderMessage_reference_block_witness :
  nth_error
    (nodeRefs (renderMessage (U := Url.simple) mode_history (js "A") Ai
                 (Some sampleUrls))) 1
  = Some {| refNumber := 2; refUrl := js "https://www.lichsu.vn/bai-viet?id=3";
            refLabel := getDomainFromUrl (U := Url.simple)
                          (js "https://www.lichsu.vn/bai-viet?id=3") |}.
Proof.
  apply (proj1 (proj2 (@renderMessage_reference_block Url.simple mode_history
                         (js "A") sampleUrls)) 1%nat).
  reflexivity.
Defined.
